(** * Hydro record handlers: live record-status broadcast

    A shallow embedding of [hydro/handler/record.ts]: the record detail
    page, the rejudge trigger and the two connection handlers
    ([RecordMainConnectionHandler], [RecordDetailConnectionHandler]) that
    push [record_change] events to their clients.

    Conventions of the embedding.
    - An [ObjectID] is represented by its hexadecimal string, so that
      [toString()] is the identity.
    - A handler body is a computation in the monad [M T], where [T] is the
      type of the fields of [this]; the computation threads the event-bus
      table, the closed flag of the connection and the chronological list of
      effects the handler performed (renders, sends, store writes).
    - The handlers are defined twice. First as they run on the
      sequential schedule: one invocation of a handler runs to completion
      before the next one starts, and a call that is not awaited runs to
      its end at the call. Then, under "Asynchronous execution", with
      their [await]s as points at which a body is suspended and other
      handlers, or the closing of the connection, may run; the sequential
      schedule is one schedule of these. Properties that depend on what a
      handler does with an event, and not on the order in which pending
      calls are resumed, are stated on the first definitions. *)

From stdpp Require Import gmap strings list fin_maps.
From Stdlib Require Import ZArith Ascii.

Local Open Scope Z_scope.
Local Open Scope string_scope.
Local Open Scope list_scope.

(** ** JavaScript values met by the handlers *)

Definition ObjectID := string.

Module Js.

(** The decoded [tid] route parameter: absent, a string, or an [ObjectID]
    object, depending on the decoder behind [Types.ObjectID]. *)
Inductive value :=
| Undefined
| Str (s : string)
| Oid (hex : ObjectID).

(** [if (v)] *)
Definition truthy (v : value) : bool :=
  match v with
  | Undefined => false
  | Str s => negb (String.eqb s "")
  | Oid _ => true
  end.

(** [s !== v] for a string [s]: strict inequality never converts, so a
    string differs from [undefined] and from every object. *)
Definition str_strict_neq (s : string) (v : value) : bool :=
  match v with
  | Str t => negb (String.eqb s t)
  | Undefined | Oid _ => true
  end.

(** [new ObjectID(v)], as its hexadecimal string. *)
Definition new_ObjectID (v : value) : ObjectID :=
  match v with
  | Str s => s
  | Oid h => h
  | Undefined => ""
  end.

(** The characters [0-9a-fA-F]. *)
Definition is_hex (a : ascii) : bool :=
  let n := nat_of_ascii a in
  (Nat.leb 48 n && Nat.leb n 57)
  || (Nat.leb 97 n && Nat.leb n 102)
  || (Nat.leb 65 n && Nat.leb n 70).

(** A hexadecimal digit in lower case. *)
Definition to_lower (a : ascii) : ascii :=
  let n := nat_of_ascii a in
  if Nat.leb 65 n && Nat.leb n 70 then ascii_of_nat (n + 32) else a.

Definition hex_digit (n : nat) : ascii :=
  if Nat.ltb n 10 then ascii_of_nat (48 + n) else ascii_of_nat (87 + n).

Definition hex_of_byte (a : ascii) : list ascii :=
  let n := nat_of_ascii a in
  [hex_digit (Nat.div n 16); hex_digit (Nat.modulo n 16)].

(** [new ObjectID(s)] for a string received from a client, as the
    hexadecimal string of the result ([toHexString()], in lower case): the
    driver accepts a string of 24 hexadecimal characters, or a string of
    12 bytes, and throws on any other string. Strings are taken as byte
    strings. *)
Definition ObjectID_of_string (s : string) : option ObjectID :=
  let cs := String.list_ascii_of_string s in
  if Nat.eqb (length cs) 24 && forallb is_hex cs
  then Some (String.string_of_list_ascii (map to_lower cs))
  else if Nat.eqb (length cs) 12
  then Some (String.string_of_list_ascii (concat (map hex_of_byte cs)))
  else None.

(** The contest a filter value designates, if any. *)
Definition designates (v : value) : option ObjectID :=
  match v with
  | Str s => Some s
  | Oid h => Some h
  | Undefined => None
  end.

End Js.

(** ** Documents *)

(** [rdoc.contest] *)
Record ContestRef := { tid : ObjectID; type : Z }.

Record Rdoc := {
  _id : ObjectID;
  uid : Z;
  pid : string;
  contest : option ContestRef;
  code : option string
}.

Record Pdoc := { pdoc_id : string; hidden : bool }.

Record Udoc := { udoc_id : Z; uname : string }.

Record Tdoc := { tdoc_id : ObjectID; tdoc_type : Z }.

(** [PERM.*] as used by this file. *)
Inductive Perm :=
| PERM_VIEW_PROBLEM_HIDDEN
| PERM_READ_RECORD_CODE
| PERM_REJUDGE.

(** [this.user] *)
Record User := { user_uid : Z; hasPerm : Perm -> bool }.

(** A field mapping of a delta ([$set], [$push]). *)
Definition Mapping := list (string * string).

(** [data.value] of a [record_change] event: the record and the two
    independently optional components of the delta. *)
Record Event := {
  ev_rdoc : Rdoc;
  ev_set : option Mapping;
  ev_push : option Mapping
}.

(** [{ value: { rdoc } }] *)
Definition synthetic (rdoc : Rdoc) : Event :=
  {| ev_rdoc := rdoc; ev_set := None; ev_push := None |}.

(** ** Errors and outcomes *)

Inductive perm_subject :=
| OfRecord (rid : ObjectID)
| OfPerm (p : Perm).

Inductive error :=
| RecordNotFoundError (rid : ObjectID)
| PermissionError (subject : perm_subject)
| TypeError (msg : string)
| StoreError (msg : string).

Inductive outcome (A : Type) :=
| Done (a : A)
| Threw (e : error).
Arguments Done {A} a.
Arguments Threw {A} e.

(** ** Effects observable from outside a handler *)

(** The context object given to [renderHTML]. *)
Inductive RenderCtx :=
| CtxRow (rdoc : Rdoc) (udoc : option Udoc) (pdoc : option Pdoc)
| CtxRdoc (rdoc : Rdoc).

Definition ctx_rdoc (c : RenderCtx) : Rdoc :=
  match c with
  | CtxRow r _ _ => r
  | CtxRdoc r => r
  end.

(** The objects given to [this.send]. *)
Inductive Message :=
| MsgHtml (html : string)
| MsgPatch (set : Mapping) (push : option Mapping)
| MsgSnapshot (status_html summary_html : string).

Inductive effect :=
| ERender (template : string) (ctx : RenderCtx)
| ESend (m : Message)
| EClose
| EReset (domainId : string) (rid : ObjectID) (isRejudge : bool)
| EJudge (domainId : string) (rid : ObjectID)
| EPublish (topic : string) (data : Event)
| EBack.

(** The messages written to the transport, in order. *)
Definition sent (tr : list effect) : list Message :=
  omap (fun e => match e with ESend m => Some m | _ => None end) tr.

(** The contexts handed to the template engine, in order. *)
Definition rendered (tr : list effect) : list RenderCtx :=
  omap (fun e => match e with ERender _ c => Some c | _ => None end) tr.

(** ** The event bus *)

Module Bus.

(** Modelled from the spec: [service/bus] is not among the sources. A
    subscriber id is opaque; a session owns its id and never shares it. *)
Definition SubId := nat.

(** Modelled from the spec: the subscription table owned by the bus, from
    topic to the subscriber ids registered for it. The callback registered
    with an id is the [onRecordChange] of the session holding that id. *)
Abbreviation table := (gmap string (gset SubId)).

(** The ids registered for [topic]. *)
Definition listeners (t : table) (topic : string) : gset SubId :=
  default ∅ (t !! topic).

(** Every id present in the table, under any topic. *)
Definition ids (t : table) : gset SubId :=
  ⋃ (map snd (map_to_list t)).

Definition add (id : SubId) (topic : string) (t : table) : table :=
  <[topic := {[id]} ∪ listeners t topic]> t.

Definition remove (id : SubId) (topic : string) (t : table) : table :=
  alter (fun s => s ∖ {[id]}) topic t.

(** Modelled from the spec: [subscribe(topics, callback) -> subscriptionId]
    of the absent [service/bus]; it registers an id that is in use
    nowhere in the table under every given topic, and returns it. *)
Definition subscribe (topics : list string) (t : table) : SubId * table :=
  let id := fresh (ids t) in
  (id, foldr (add id) t topics).

(** Modelled from the spec: [unsubscribe(topics, subscriptionId)] of the
    absent [service/bus]; it removes the id from every given topic.
    [this.id] is [undefined] until the session has subscribed, and
    removing [undefined] removes nothing. *)
Definition unsubscribe (topics : list string) (id : option SubId) (t : table) : table :=
  match id with
  | Some i => foldr (remove i) t topics
  | None => t
  end.

(** Whether the table has an entry for [id] under [topic]. *)
Definition subscribed (t : table) (topic : string) (id : option SubId) : bool :=
  match id with
  | Some i => bool_decide (i ∈ listeners t topic)
  | None => false
  end.

End Bus.

(** ** The store and the environment of a handler *)

(** The collections read by the handlers. Records, users and problems are
    kept per domain; [contest_get] is [contest.get], whose behaviour on a
    missing contest is left to the store. *)
Record Store := {
  records : string -> list Rdoc;
  users : string -> list Udoc;
  problems : string -> list Pdoc;
  contest_get : string -> ObjectID -> Z -> outcome (option Tdoc)
}.

(** Modelled from the spec: [record.get(domainId, rid)] of the absent
    [model/record], "fetch record by id": the document of the domain with
    that id, or [null] when there is none (its callers in this file test
    the result with [if (!rdoc)] and [if (rdoc)]). *)
Definition record_get (db : Store) (domainId : string) (rid : ObjectID) : option Rdoc :=
  find (fun r => String.eqb (_id r) rid) (records db domainId).

(** Modelled from the spec: [record.getMulti(domainId, { _id: { $in: rids
    } }).toArray()] of the absent [model/record], "fetch records matching
    a filter": the documents of the domain whose id is among [rids]. A
    query made before [this.domainId] is assigned finds nothing. *)
Definition record_getMulti_in (db : Store) (domainId : option string) (rids : list ObjectID)
  : list Rdoc :=
  match domainId with
  | Some d => filter (fun r => _id r ∈ rids) (records db d)
  | None => []
  end.

(** Modelled from the spec: [user.getById(domainId, uid)] of the absent
    [model/user], "fetch user by id". *)
Definition user_getById (db : Store) (domainId : option string) (u : Z) : option Udoc :=
  match domainId with
  | Some d => find (fun x => Z.eqb (udoc_id x) u) (users db d)
  | None => None
  end.

(** Modelled from the spec: [problem.get(domainId, pid, ...)] of the
    absent [model/problem], "fetch problem by id"; the caller applies the
    hidden-problem test itself. *)
Definition problem_get (db : Store) (domainId : option string) (p : string) : option Pdoc :=
  match domainId with
  | Some d => find (fun x => String.eqb (pdoc_id x) p) (problems db d)
  | None => None
  end.

(** What a handler instance is given by the framework: the requesting
    user, the store, the base handler's [checkPerm], the contest mixin's
    [canShowRecord] (its second argument is optional) and the template
    engine. *)
Record Env := {
  user : User;
  db : Store;
  checkPerm : Perm -> outcome unit;
  canShowRecord : option Tdoc -> option bool -> bool;
  render : string -> RenderCtx -> string
}.

(** ** The handler monad *)

Record Ctx (T : Type) := mkCtx {
  this : T;
  bus : Bus.table;
  closed : bool;
  trace : list effect
}.
Arguments mkCtx {T} this bus closed trace.
Arguments this {T} c.
Arguments bus {T} c.
Arguments closed {T} c.
Arguments trace {T} c.

Definition M (T A : Type) : Type := Ctx T -> outcome A * Ctx T.

Definition ret {T A} (a : A) : M T A := fun c => (Done a, c).

Definition bind {T A B} (m : M T A) (k : A -> M T B) : M T B :=
  fun c =>
    match m c with
    | (Done a, c') => k a c'
    | (Threw e, c') => (Threw e, c')
    end.

Definition throw {T A} (e : error) : M T A := fun c => (Threw e, c).

Definition lift {T A} (o : outcome A) : M T A := fun c => (o, c).

Definition get_this {T} : M T T := fun c => (Done (this c), c).

Definition set_this {T} (f : T -> T) : M T unit :=
  fun c => (Done tt, mkCtx (f (this c)) (bus c) (closed c) (trace c)).

Definition emit {T} (e : effect) : M T unit :=
  fun c => (Done tt, mkCtx (this c) (bus c) (closed c) (trace c ++ [e])).

Declare Scope handler_scope.
Delimit Scope handler_scope with handler.
Notation "x <~ m ;; k" := (bind m (fun x => k))
  (at level 100, m at next level, right associativity) : handler_scope.
Notation "m ;;; k" := (bind m (fun _ => k))
  (at level 100, right associativity) : handler_scope.
Local Open Scope handler_scope.

(** [this.send(m)] *)
Definition send {T} (m : Message) : M T unit := emit (ESend m).

(** [this.renderHTML(template, ctx)] *)
Definition renderHTML {T} (env : Env) (template : string) (ctx : RenderCtx) : M T string :=
  emit (ERender template ctx) ;;; ret (render env template ctx).

(** [this.close()] *)
Definition close {T} : M T unit :=
  fun c => (Done tt, mkCtx (this c) (bus c) true (trace c ++ [EClose])).

(** [bus.subscribe(['record_change'], cb)] *)
Definition bus_subscribe {T} (topics : list string) : M T Bus.SubId :=
  fun c =>
    let '(id, t) := Bus.subscribe topics (bus c) in
    (Done id, mkCtx (this c) t (closed c) (trace c)).

(** [bus.unsubscribe(['record_change'], id)] *)
Definition bus_unsubscribe {T} (topics : list string) (id : option Bus.SubId) : M T unit :=
  fun c => (Done tt, mkCtx (this c) (Bus.unsubscribe topics id (bus c)) (closed c) (trace c)).

(** [for (const x of xs) f(x)] *)
Fixpoint for_each {T A} (f : A -> M T unit) (xs : list A) : M T unit :=
  match xs with
  | [] => ret tt
  | x :: rest => f x ;;; for_each f rest
  end.

(** A call that is not awaited, on the sequential schedule: the callee
    runs to its end at the call, and a rejection does not reach the
    caller. *)
Definition spawn {T A} (m : M T A) : M T unit :=
  fun c => (Done tt, snd (m c)).

(** ** Request handlers *)

Inductive Body :=
| BodyDetail (udoc : option Udoc) (rdoc : Rdoc) (pdoc : option Pdoc).

(** [this.response] *)
Record Response := {
  response_template : option string;
  response_body : option Body
}.

Definition empty_response : Response :=
  {| response_template := None; response_body := None |}.

Definition set_template (t : string) (r : Response) : Response :=
  {| response_template := Some t; response_body := response_body r |}.

Definition set_body (b : Body) (r : Response) : Response :=
  {| response_template := response_template r; response_body := Some b |}.

(** [rdoc.code = null] *)
Definition scrub_code (rdoc : Rdoc) : Rdoc :=
  {| _id := _id rdoc; uid := uid rdoc; pid := pid rdoc;
     contest := contest rdoc; code := None |}.

Module RecordDetailHandler.

Definition get (env : Env) (domainId : string) (rid : ObjectID) : M Response unit :=
  set_this (set_template "record_detail.html") ;;;
  match record_get (db env) domainId rid with
  | None => throw (RecordNotFoundError rid)
  | Some rdoc =>
      match contest rdoc with
      | Some c =>
          tdoc <~ lift (contest_get (db env) domainId (tid c) (type c)) ;;
          if canShowRecord env tdoc (Some true) then ret tt
          else throw (PermissionError (OfRecord rid))
      | None => ret tt
      end ;;;
      let rdoc :=
        if negb (Z.eqb (uid rdoc) (user_uid (user env)))
           && negb (hasPerm (user env) PERM_READ_RECORD_CODE)
        then scrub_code rdoc else rdoc in
      let pdoc := problem_get (db env) (Some domainId) (pid rdoc) in
      let udoc := user_getById (db env) (Some domainId) (uid rdoc) in
      set_this (set_body (BodyDetail udoc rdoc pdoc))
  end.

End RecordDetailHandler.

Module RecordRejudgeHandler.

Definition post (env : Env) (domainId : string) (rid : ObjectID) : M Response unit :=
  lift (checkPerm env PERM_REJUDGE) ;;;
  match record_get (db env) domainId rid with
  | Some _ => emit (EReset domainId rid true) ;;; emit (EJudge domainId rid)
  | None => ret tt
  end ;;;
  emit EBack.

End RecordRejudgeHandler.

(** ** Connection handlers *)

(** A message from the client of a list connection; [rids] is [None] when
    [msg.rids] is not an array, and otherwise holds the strings of the
    array as the client sent them. *)
Record ClientMsg := { rids : option (list string) }.

(** What the [ObjectID] constructor of the driver throws on a string it
    does not accept. *)
Definition invalid_ObjectID : error :=
  StoreError "Argument passed in must be a single String of 12 bytes or a string of 24 hex characters".

Module Main.

(** The fields of a [RecordMainConnectionHandler]. *)
Record state := {
  this_domainId : option string;
  this_tid : Js.value;
  this_id : option Bus.SubId
}.

Definition init : state :=
  {| this_domainId := None; this_tid := Js.Undefined; this_id := None |}.

Definition set_domainId (d : string) (s : state) : state :=
  {| this_domainId := Some d; this_tid := this_tid s; this_id := this_id s |}.

Definition set_tid (v : Js.value) (s : state) : state :=
  {| this_domainId := this_domainId s; this_tid := v; this_id := this_id s |}.

Definition set_id (i : Bus.SubId) (s : state) : state :=
  {| this_domainId := this_domainId s; this_tid := this_tid s; this_id := Some i |}.

(** [rdoc.contest && rdoc.contest.tid.toString() !== this.tid] *)
Definition other_contest (rdoc : Rdoc) (self : state) : bool :=
  match contest rdoc with
  | Some c => Js.str_strict_neq (tid c) (this_tid self)
  | None => false
  end.

(** [pdoc && pdoc.hidden && !this.user.hasPerm(PERM_VIEW_PROBLEM_HIDDEN)] *)
Definition hidden_from (env : Env) (pdoc : option Pdoc) : bool :=
  match pdoc with
  | Some p => hidden p && negb (hasPerm (user env) PERM_VIEW_PROBLEM_HIDDEN)
  | None => false
  end.

Definition onRecordChange (env : Env) (data : Event) : M state unit :=
  let rdoc := ev_rdoc data in
  self <~ get_this ;;
  if other_contest rdoc self then ret tt
  else
    let udoc := user_getById (db env) (this_domainId self) (uid rdoc) in
    let pdoc := problem_get (db env) (this_domainId self) (pid rdoc) in
    if hidden_from env pdoc then ret tt
    else
      html <~ renderHTML env "record_main_tr.html" (CtxRow rdoc udoc pdoc) ;;
      send (MsgHtml html).

Definition prepare (env : Env) (domainId : string) (tid : Js.value) : M state unit :=
  set_this (set_domainId domainId) ;;;
  proceed <~
    (if Js.truthy tid then
       tdoc <~ lift (contest_get (db env) domainId (Js.new_ObjectID tid) (-1)) ;;
       if canShowRecord env tdoc None then set_this (set_tid tid) ;;; ret true
       else close ;;; ret false
     else ret true) ;;
  if proceed : bool then
    id <~ bus_subscribe ["record_change"] ;;
    set_this (set_id id)
  else ret tt.

Definition message (env : Env) (msg : ClientMsg) : M state unit :=
  match rids msg with
  | Some ids =>
      match mapM Js.ObjectID_of_string ids with
      | None => throw invalid_ObjectID
      | Some rids =>
          self <~ get_this ;;
          for_each (fun rdoc => spawn (onRecordChange env (synthetic rdoc)))
                   (record_getMulti_in (db env) (this_domainId self) rids)
      end
  | None => ret tt
  end.

Definition cleanup : M state unit :=
  self <~ get_this ;;
  bus_unsubscribe ["record_change"] (this_id self).

End Main.

(** The template context of the row a list session renders for [rdoc]:
    [{ rdoc, udoc, pdoc }]. *)
Definition row_ctx (env : Env) (self : Main.state) (rdoc : Rdoc) : RenderCtx :=
  CtxRow rdoc
         (user_getById (db env) (Main.this_domainId self) (uid rdoc))
         (problem_get (db env) (Main.this_domainId self) (pid rdoc)).

Module Detail.

(** The fields of a [RecordDetailConnectionHandler]. *)
Record state := {
  this_rid : option string;
  this_id : option Bus.SubId
}.

Definition init : state := {| this_rid := None; this_id := None |}.

Definition set_rid (r : string) (s : state) : state :=
  {| this_rid := Some r; this_id := this_id s |}.

Definition set_id (i : Bus.SubId) (s : state) : state :=
  {| this_rid := this_rid s; this_id := Some i |}.

(** [rdoc._id.toString() !== this.rid] *)
Definition other_record (rdoc : Rdoc) (self : state) : bool :=
  match this_rid self with
  | Some r => negb (String.eqb (_id rdoc) r)
  | None => true
  end.

Definition onRecordChange (env : Env) (data : Event) : M state unit :=
  let rdoc := ev_rdoc data in
  self <~ get_this ;;
  if other_record rdoc self then ret tt
  else
    match ev_set data with
    | Some set => send (MsgPatch set (ev_push data))
    | None =>
        status_html <~ renderHTML env "record_detail_status.html" (CtxRdoc rdoc) ;;
        summary_html <~ renderHTML env "record_detail_summary.html" (CtxRdoc rdoc) ;;
        send (MsgSnapshot status_html summary_html)
    end.

Definition prepare (env : Env) (domainId : string) (rid : ObjectID) : M state unit :=
  match record_get (db env) domainId rid with
  | None => throw (TypeError "Cannot read property 'contest' of null")
  | Some rdoc =>
      proceed <~
        match contest rdoc with
        | Some c =>
            tdoc <~ lift (contest_get (db env) domainId (tid c) (-1)) ;;
            if canShowRecord env tdoc None then ret true
            else close ;;; ret false
        | None => ret true
        end ;;
      if proceed : bool then
        set_this (set_rid rid) ;;;
        id <~ bus_subscribe ["record_change"] ;;
        set_this (set_id id) ;;;
        spawn (onRecordChange env (synthetic rdoc))
      else ret tt
  end.

Definition cleanup : M state unit :=
  self <~ get_this ;;
  bus_unsubscribe ["record_change"] (this_id self).

End Detail.

(** ** The life of a connection *)

(** What reaches an open connection: an event published on the bus, or a
    message from the client. *)
Inductive action :=
| Published (data : Event)
| Received (msg : ClientMsg).

(** Modelled from the spec: [bus.publish('record_change', data)] as seen by
    one session. The callback bound to the session runs if and only if the
    session's id is registered for the topic; a failure inside the callback
    is isolated from the publisher. *)
Definition deliver {T} (id_of : T -> option Bus.SubId) (cb : Event -> M T unit)
    (data : Event) : M T unit :=
  fun c =>
    if Bus.subscribed (bus c) "record_change" (id_of (this c))
    then spawn (cb data) c
    else (Done tt, c).

(** Modelled from the spec: the connection framework of [service/server] is
    not among the sources. The sequential schedule of a connection: it is
    opened by [prepare], which runs to its end; if [prepare] returns with
    the connection still open, the actions reaching it are handled one
    after the other. *)
Definition serve {T} (prepare : M T unit) (step : action -> M T unit)
    (acts : list action) : Ctx T -> outcome unit * Ctx T :=
  fun c =>
    match prepare c with
    | (Done _, c1) =>
        if closed c1 then (Done tt, c1)
        else for_each (fun a => spawn (step a)) acts c1
    | (Threw e, c1) => (Threw e, c1)
    end.

(** Modelled from the spec: closing the transport, by [this.close()], by an
    error of [prepare] or by the client, runs [cleanup] and leaves the
    connection closed. *)
Definition shutdown {T} (cleanup : M T unit) (c : Ctx T) : Ctx T :=
  let c' := snd (cleanup c) in
  mkCtx (this c') (bus c') true (trace c').

Definition lifecycle {T} (prepare : M T unit) (step : action -> M T unit)
    (cleanup : M T unit) (acts : list action) (c : Ctx T) : Ctx T :=
  shutdown cleanup (snd (serve prepare step acts c)).

(** A handler instance just constructed, on a bus with table [b]. *)
Definition start {T} (init : T) (b : Bus.table) : Ctx T :=
  mkCtx init b false [].

Module MainSession.

Definition step (env : Env) (a : action) : M Main.state unit :=
  match a with
  | Published data => deliver Main.this_id (Main.onRecordChange env) data
  | Received msg => Main.message env msg
  end.

Definition open (env : Env) (domainId : string) (tid : Js.value) (acts : list action)
    (b : Bus.table) : outcome unit * Ctx Main.state :=
  serve (Main.prepare env domainId tid) (step env) acts (start Main.init b).

Definition run (env : Env) (domainId : string) (tid : Js.value) (acts : list action)
    (b : Bus.table) : Ctx Main.state :=
  lifecycle (Main.prepare env domainId tid) (step env) Main.cleanup acts
            (start Main.init b).

End MainSession.

Module DetailSession.

(** The detail handler defines no [message] method. *)
Definition step (env : Env) (a : action) : M Detail.state unit :=
  match a with
  | Published data => deliver Detail.this_id (Detail.onRecordChange env) data
  | Received _ => ret tt
  end.

Definition open (env : Env) (domainId : string) (rid : ObjectID) (acts : list action)
    (b : Bus.table) : outcome unit * Ctx Detail.state :=
  serve (Detail.prepare env domainId rid) (step env) acts (start Detail.init b).

Definition run (env : Env) (domainId : string) (rid : ObjectID) (acts : list action)
    (b : Bus.table) : Ctx Detail.state :=
  lifecycle (Detail.prepare env domainId rid) (step env) Detail.cleanup acts
            (start Detail.init b).

End DetailSession.

(** What it means for a closed session to have left nothing on the bus:
    its own id is registered under no topic, and every topic has the
    listeners it had before the session was opened. *)
Definition released (b b' : Bus.table) (id : option Bus.SubId) : Prop :=
  forall topic,
    Bus.subscribed b' topic id = false /\
    Bus.listeners b' topic = Bus.listeners b topic.

(** ** Vocabulary of the statements *)

(** The message a list session sends for a rendered row. *)
Definition row_message (env : Env) (x : RenderCtx) : Message :=
  MsgHtml (render env "record_main_tr.html" x).

(** [rows_of env Q tr]: every message sent in [tr] is the rendering of a
    row rendered in [tr], in the same order, and every rendered row is for
    a record satisfying [Q]. *)
Definition rows_of (env : Env) (Q : Rdoc -> Prop) (tr : list effect) : Prop :=
  sent tr = map (row_message env) (rendered tr) /\
  Forall (fun x => Q (ctx_rdoc x)) (rendered tr).

(** A record is within the filter [v] when, if it is associated with a
    contest at all, that contest is the one [v] designates. *)
Definition within_filter (v : Js.value) (r : Rdoc) : Prop :=
  forall ct, contest r = Some ct -> Js.designates v = Some (tid ct).

(** A record gets past both tests of the list session's [onRecordChange]:
    the contest test and the hidden-problem test. *)
Definition shown (env : Env) (self : Main.state) (rdoc : Rdoc) : bool :=
  negb (Main.other_contest rdoc self)
  && negb (Main.hidden_from env
             (problem_get (db env) (Main.this_domainId self) (pid rdoc))).

(** The filter a list session opened with parameter [tid] works with. *)
Definition filter_of (tid : Js.value) : Js.value :=
  if Js.truthy tid then tid else Js.Undefined.

(** The full snapshot of [rdoc]: the object sent, and the effects of
    producing and sending it (status render, summary render, send). *)
Definition snapshot_message (env : Env) (rdoc : Rdoc) : Message :=
  MsgSnapshot (render env "record_detail_status.html" (CtxRdoc rdoc))
              (render env "record_detail_summary.html" (CtxRdoc rdoc)).

Definition snapshot_effects (env : Env) (rdoc : Rdoc) : list effect :=
  [ERender "record_detail_status.html" (CtxRdoc rdoc);
   ERender "record_detail_summary.html" (CtxRdoc rdoc);
   ESend (snapshot_message env rdoc)].

(** A detail connection for [rdoc] passes authorization when the record
    has no contest, or its contest is found and [canShowRecord] accepts
    it. *)
Definition authorized (env : Env) (domainId : string) (rdoc : Rdoc) : bool :=
  match contest rdoc with
  | None => true
  | Some c =>
      match contest_get (db env) domainId (tid c) (-1) with
      | Done tdoc => canShowRecord env tdoc None
      | Threw _ => false
      end
  end.

(** [adds P c c']: from [c] to [c'] the fields of [this], the bus table
    and the closed flag are unchanged, and the effects appended to the
    trace satisfy [P]. *)
Definition adds {T} (P : list effect -> Prop) (c c' : Ctx T) : Prop :=
  this c' = this c /\ bus c' = bus c /\ closed c' = closed c /\
  exists tr, trace c' = trace c ++ tr /\ P tr.

(** Unfolds the combinators of the handler monad. *)
Ltac run :=
  unfold send, renderHTML in *;
  unfold bind, ret, throw, lift, get_this, set_this, emit,
         close, bus_subscribe, bus_unsubscribe, spawn in *;
  simpl in *.

(** ** A small installation, used to evaluate the handlers *)

Module Demo.

Definition T1 : ObjectID := "5e8f1c000000000000000001".
Definition T2 : ObjectID := "5e8f1c000000000000000002".

Definition P1 : Pdoc := {| pdoc_id := "P1"; hidden := false |}.
Definition P2 : Pdoc := {| pdoc_id := "P2"; hidden := true |}.

Definition alice : Udoc := {| udoc_id := 1; uname := "alice" |}.
Definition bob : Udoc := {| udoc_id := 2; uname := "bob" |}.

(** [R1]: no contest, visible problem. *)
Definition R1 : Rdoc :=
  {| _id := "5e8f1c0000000000000000a1"; uid := 1; pid := "P1";
     contest := None; code := Some "int main() { return 0; }" |}.

(** [R2]: no contest, hidden problem. *)
Definition R2 : Rdoc :=
  {| _id := "5e8f1c0000000000000000a2"; uid := 1; pid := "P2";
     contest := None; code := Some "print(42)" |}.

(** [R3]: submitted in contest [T2]. *)
Definition R3 : Rdoc :=
  {| _id := "5e8f1c0000000000000000a3"; uid := 1; pid := "P1";
     contest := Some {| tid := T2; type := 30 |}; code := Some "begin end." |}.

(** An id no record has. *)
Definition X : ObjectID := "5e8f1c0000000000000000ff".

Definition store : Store :=
  {| records := fun _ => [R1; R2; R3];
     users := fun _ => [alice; bob];
     problems := fun _ => [P1; P2];
     contest_get := fun _ t ty => Done (Some {| tdoc_id := t; tdoc_type := ty |}) |}.

(** A viewer who is not [alice] and holds no permission. *)
Definition guest : User := {| user_uid := 2; hasPerm := fun _ => false |}.

(** A viewer holding the rejudge permission only. *)
Definition judge : User :=
  {| user_uid := 3;
     hasPerm := fun p => match p with PERM_REJUDGE => true | _ => false end |}.

Definition check (u : User) (p : Perm) : outcome unit :=
  if hasPerm u p then Done tt else Threw (PermissionError (OfPerm p)).

(** A template engine that prints the template name and the record id. *)
Definition engine (template : string) (x : RenderCtx) : string :=
  (template ++ "#" ++ _id (ctx_rdoc x))%string.

Definition env_of (u : User) : Env :=
  {| user := u; db := store; checkPerm := check u;
     canShowRecord := fun _ _ => true; render := engine |}.

Definition env : Env := env_of guest.

End Demo.

(** ** Further vocabulary *)


(** The effects of rendering and sending the row of [rdoc]. *)
Definition row_effects (env : Env) (self : Main.state) (rdoc : Rdoc) : list effect :=
  [ERender "record_main_tr.html" (row_ctx env self rdoc);
   ESend (row_message env (row_ctx env self rdoc))].

(** The records a resynchronisation request for the strings [ids] leads
    to a row for: those stored in the session's domain under one of the
    ids, once each string has been made an [ObjectID], in the order of the
    store, that get past both tests. *)
Definition resync_rows (env : Env) (self : Main.state) (ids : list string) : list Rdoc :=
  match mapM Js.ObjectID_of_string ids with
  | Some oids =>
      filter (fun r => shown env self r = true)
             (record_getMulti_in (db env) (Main.this_domainId self) oids)
  | None => []
  end.

(** An effect that is a render or a send. *)
Definition render_or_send (e : effect) : Prop :=
  match e with
  | ERender _ _ | ESend _ => True
  | _ => False
  end.

(** ** The management handlers

    The role and user screens of the management handlers: the grouping of
    users by role of [ManageUserHandler.get] and the role requests of
    [ManageRoleHandler]. What [model/user] returns is a parameter; a
    JavaScript object used as a dictionary is a [gmap]. *)

Module Manage.

(** A role document: [role._id] and [role.perm]. *)
Record RoleDoc := { role_id : string; perm : string }.

(** A user document: [udoc._id] and [udoc.role]. *)
Record UserDoc := { _id : Z; role : string }.

Inductive error :=
| RoleAlreadyExistError (role : string)
| ValidationError (field : string)
| TypeError (msg : string).

(** A value found in a request body: a string, an array, or a value
    that cannot be iterated ([undefined], [null], a number, a boolean, a
    plain object). *)
#[local] Unset Elimination Schemes.
Inductive value :=
| VString (s : string)
| VArray (items : list value)
| VOther.
#[local] Set Elimination Schemes.

(** [for (const x of v)]: the items of an array, the characters of a
    string (each a string of its own), and a type error on anything
    else. *)
Definition iterate (v : value) : option (list value) :=
  match v with
  | VArray items => Some items
  | VString s =>
      Some (map (fun a => VString (String a EmptyString)) (String.list_ascii_of_string s))
  | VOther => None
  end.

(** The writes a handler asks of [model/user], and [this.back()]. *)
Inductive op :=
| AddRole (role perm : string)
| DeleteRoles (roles : value)
| SetRole (uid : Z) (role : string)
| Back.

(** [this.response.body] of the user screen. *)
Record UserBody := {
  body_roles : list RoleDoc;
  body_rolesSelect : list (string * string);
  body_rudocs : gmap string (list UserDoc);
  body_udict : list (Z * UserDoc);
  body_system : option UserDoc
}.

(** [for (const role of roles) rudocs[role._id] = [];] *)
Definition init_rudocs (roles : list RoleDoc) : gmap string (list UserDoc) :=
  foldl (fun m r => <[role_id r := []]> m) ∅ roles.

(** [for (const udoc of udocs) { uids.push(udoc._id);
    rudocs[udoc.role].push(udoc); }]: [push] on [undefined], when the
    user's role has no entry, is a type error. *)
Fixpoint group (udocs : list UserDoc) (uids : list Z) (rudocs : gmap string (list UserDoc))
  : error + (list Z * gmap string (list UserDoc)) :=
  match udocs with
  | [] => inr (uids, rudocs)
  | udoc :: rest =>
      match rudocs !! role udoc with
      | None => inl (TypeError "Cannot read property 'push' of undefined")
      | Some l => group rest (uids ++ [_id udoc]) (<[role udoc := l ++ [udoc]]> rudocs)
      end
  end.

Module ManageUserHandler.

(** [get()], given the results of the three initial queries ([udocs]:
    the users whose role is neither [default] nor [guest]; [roles];
    [system]) and [user.getList]. *)
Definition get (udocs : list UserDoc) (roles : list RoleDoc) (system : option UserDoc)
    (getList : list Z -> list (Z * UserDoc)) : error + (string * UserBody) :=
  match group udocs [] (init_rudocs roles) with
  | inl e => inl e
  | inr (uids, rudocs) =>
      let rolesSelect := map (fun r => (role_id r, role_id r)) roles in
      let udict := getList uids in
      inr ("manage_user.html",
           {| body_roles := roles; body_rolesSelect := rolesSelect;
              body_rudocs := rudocs; body_udict := udict;
              body_system := system |})
  end.

(** [postSetUser({ uid, role })] *)
Definition postSetUser (uid : Z) (r : string) : (error + unit) * list op :=
  (inr tt, [SetRole uid r; Back]).

End ManageUserHandler.

Module ManageRoleHandler.

(** [postAdd({ role })], given [user.getRole]. *)
Definition postAdd (getRole : string -> option RoleDoc) (r : string)
  : (error + unit) * list op :=
  let existing := getRole r in
  let u := getRole "default" in
  match existing with
  | Some _ => (inl (RoleAlreadyExistError r), [])
  | None =>
      match u with
      | None => (inl (TypeError "Cannot read property 'perm' of null"), [])
      | Some u => (inr tt, [AddRole r (perm u); Back])
      end
  end.

(** [['root', 'default', 'guest'].includes(role)]: only a string equal
    to one of the three names is included. *)
Definition builtin (role : value) : bool :=
  match role with
  | VString r => existsb (String.eqb r) ["root"; "default"; "guest"]
  | _ => false
  end.

(** An item is one of the protected role names. *)
Definition protected (v : value) : Prop :=
  v = VString "root" \/ v = VString "default" \/ v = VString "guest".

(** The loop of [postDelete]: the first built-in role met aborts it. *)
Fixpoint validate (roles : list value) : option error :=
  match roles with
  | [] => None
  | r :: rest => if builtin r then Some (ValidationError "role") else validate rest
  end.

(** [postDelete({ roles })]: [roles] is whatever the request body holds
    under that name; it is iterated, and then passed on as it is. *)
Definition postDelete (roles : value) : (error + unit) * list op :=
  match iterate roles with
  | None => (inl (TypeError "roles is not iterable"), [])
  | Some items =>
      match validate items with
      | Some e => (inl e, [])
      | None => (inr tt, [DeleteRoles roles; Back])
      end
  end.

End ManageRoleHandler.

End Manage.

(** A small set of roles and users, used to evaluate the management
    handlers. *)
Module ManageDemo.

Definition root : Manage.RoleDoc := {| Manage.role_id := "root"; Manage.perm := "-1" |}.
Definition admin : Manage.RoleDoc := {| Manage.role_id := "admin"; Manage.perm := "ff" |}.
Definition default : Manage.RoleDoc := {| Manage.role_id := "default"; Manage.perm := "0f" |}.

Definition u1 : Manage.UserDoc := {| Manage._id := 1; Manage.role := "root" |}.
Definition u2 : Manage.UserDoc := {| Manage._id := 2; Manage.role := "admin" |}.
Definition u3 : Manage.UserDoc := {| Manage._id := 3; Manage.role := "root" |}.
Definition u4 : Manage.UserDoc := {| Manage._id := 4; Manage.role := "teacher" |}.

Definition getList (uids : list Z) : list (Z * Manage.UserDoc) :=
  omap (fun i => (fun u => (i, u)) <$> find (fun u => Z.eqb (Manage._id u) i) [u1; u2; u3; u4])
       uids.

End ManageDemo.

(** Further data for the record handlers. *)
Module Demo2.

(** A viewer who holds the hidden-problem and code-read permissions. *)
Definition staff : User :=
  {| user_uid := 4;
     hasPerm := fun p => match p with PERM_REJUDGE => false | _ => true end |}.

(** A store in which contest lookups fail. *)
Definition broken : Store :=
  {| records := records Demo.store; users := users Demo.store;
     problems := problems Demo.store;
     contest_get := fun _ _ _ => Threw (StoreError "contest") |}.

(** An installation whose contest mixin refuses every contest. *)
Definition strict (u : User) : Env :=
  {| user := u; db := Demo.store; checkPerm := Demo.check u;
     canShowRecord := fun _ _ => false; render := Demo.engine |}.

End Demo2.

(** ** Asynchronous execution

    The handlers are [async] functions. A call of one runs its body up to
    the first [await] and returns; what follows the [await] runs later,
    when the event loop resumes it, and other handlers may run in between.
    A call that is not awaited leaves its remainder pending while the
    caller goes on. The bodies below are those of [record.ts] again, this
    time with their [await]s where the source has them. *)

#[local] Unset Elimination Schemes.
(** A call in progress: settled, or suspended at an [await]. Resuming it
    runs it up to its next [await] or its end, and yields the calls
    it started without awaiting them. *)
Inductive async (T : Type) : Type :=
| Settled (r : outcome unit)
| Awaiting (resume : Ctx T -> Ctx T * async T * list (async T)).
#[local] Set Elimination Schemes.
Arguments Settled {T} r.
Arguments Awaiting {T} resume.

(** The body of an [async] function, from a call or from an [await]
    on. *)
Definition call (T : Type) : Type := Ctx T -> Ctx T * async T * list (async T).

(** The body ends. *)
Definition settle {T} (r : outcome unit) : call T :=
  fun c => (c, Settled r, []).

(** A last synchronous stretch, then the body ends. *)
Definition sync {T} (m : M T unit) : call T :=
  fun c => let '(r, c') := m c in (c', Settled r, []).

(** A synchronous stretch, then the rest of the body; an exception ends
    the body. *)
Definition seq {T A} (m : M T A) (k : A -> call T) : call T :=
  fun c =>
    match m c with
    | (Done a, c') => k a c'
    | (Threw e, c') => (c', Settled (Threw e), [])
    end.

(** [await]: the body is suspended, [k] is what runs when it is
    resumed. *)
Definition await {T} (k : call T) : call T :=
  fun c => (c, Awaiting k, []).

(** What remains pending of a call. *)
Definition pending_of {T} (a : async T) : list (async T) :=
  match a with
  | Settled _ => []
  | Awaiting _ => [a]
  end.

(** A call that is not awaited: the callee runs up to its first [await],
    stays pending if it has not ended, and the caller goes on with
    [k]. *)
Definition fork {T} (callee : call T) (k : call T) : call T :=
  fun c =>
    let '(c1, a, spawned) := callee c in
    let '(c2, a', spawned') := k c1 in
    (c2, a', pending_of a ++ spawned ++ spawned').

(** [for (const x of xs) f(x)], the calls not awaited. *)
Fixpoint for_each_fork {T A} (f : A -> call T) (xs : list A) : call T :=
  match xs with
  | [] => settle (Done tt)
  | x :: rest => fork (f x) (for_each_fork f rest)
  end.

Module DetailAsync.

Definition onRecordChange (env : Env) (data : Event) : call Detail.state :=
  let rdoc := ev_rdoc data in
  seq get_this (fun self =>
  if Detail.other_record rdoc self then settle (Done tt)
  else
    match ev_set data with
    | Some set => sync (send (MsgPatch set (ev_push data)))
    | None =>
        seq (renderHTML env "record_detail_status.html" (CtxRdoc rdoc))
            (fun status_html =>
        await (
        seq (renderHTML env "record_detail_summary.html" (CtxRdoc rdoc))
            (fun summary_html =>
        await (
        sync (send (MsgSnapshot status_html summary_html))))))
    end).

Definition prepare (env : Env) (domainId : string) (rid : ObjectID) : call Detail.state :=
  (* [record.get] is called, and awaited *)
  await (
    match record_get (db env) domainId rid with
    | None => settle (Threw (TypeError "Cannot read property 'contest' of null"))
    | Some rdoc =>
        let proceed : call Detail.state :=
          seq (set_this (Detail.set_rid rid)) (fun _ =>
          seq (bus_subscribe ["record_change"]) (fun id =>
          seq (set_this (Detail.set_id id)) (fun _ =>
          fork (onRecordChange env (synthetic rdoc)) (settle (Done tt))))) in
        match contest rdoc with
        | Some c =>
            (* [contest.get] is called, and awaited *)
            await (
              seq (lift (contest_get (db env) domainId (tid c) (-1))) (fun tdoc =>
              if canShowRecord env tdoc None then proceed else sync close))
        | None => proceed
        end
    end).

Definition cleanup : M Detail.state unit := Detail.cleanup.

End DetailAsync.

Module MainAsync.

Definition onRecordChange (env : Env) (data : Event) : call Main.state :=
  let rdoc := ev_rdoc data in
  seq get_this (fun self =>
  if Main.other_contest rdoc self then settle (Done tt)
  else
    let udoc := user_getById (db env) (Main.this_domainId self) (uid rdoc) in
    let pdoc := problem_get (db env) (Main.this_domainId self) (pid rdoc) in
    (* [Promise.all] of the two lookups is awaited *)
    await (
      if Main.hidden_from env pdoc then settle (Done tt)
      else
        seq (renderHTML env "record_main_tr.html" (CtxRow rdoc udoc pdoc)) (fun html =>
        await (sync (send (MsgHtml html)))))).

Definition prepare (env : Env) (domainId : string) (tid : Js.value) : call Main.state :=
  seq (set_this (Main.set_domainId domainId)) (fun _ =>
  let subscribe : call Main.state :=
    seq (bus_subscribe ["record_change"]) (fun id => sync (set_this (Main.set_id id))) in
  if Js.truthy tid then
    (* [contest.get] is called, and awaited *)
    await (
      seq (lift (contest_get (db env) domainId (Js.new_ObjectID tid) (-1))) (fun tdoc =>
      if canShowRecord env tdoc None
      then seq (set_this (Main.set_tid tid)) (fun _ => subscribe)
      else sync close))
  else subscribe).

Definition message (env : Env) (msg : ClientMsg) : call Main.state :=
  match rids msg with
  | Some ids =>
      match mapM Js.ObjectID_of_string ids with
      | None => settle (Threw invalid_ObjectID)
      | Some rids =>
          seq get_this (fun self =>
          (* the query is made, and its result awaited *)
          let rdocs := record_getMulti_in (db env) (Main.this_domainId self) rids in
          await (for_each_fork (fun rdoc => onRecordChange env (synthetic rdoc)) rdocs))
      end
  | None => settle (Done tt)
  end.

Definition cleanup : M Main.state unit := Main.cleanup.

End MainAsync.

(** Running a call in progress to its end at once, and, each time it has
    started calls without awaiting them, running these to their end
    before it goes on: the schedule that the handlers of the sections
    above follow. *)
Fixpoint finish {T} (a : async T) (c : Ctx T) {struct a} : outcome unit * Ctx T :=
  match a with
  | Settled r => (r, c)
  | Awaiting resume =>
      match resume c with
      | (c1, a', spawned) =>
          let c2 :=
            (fix all (l : list (async T)) (c : Ctx T) {struct l} : Ctx T :=
               match l with
               | [] => c
               | s :: l' => all l' (snd (finish s c))
               end) spawned c1 in
          finish a' c2
      end
  end.

Definition finish_all {T} (l : list (async T)) (c : Ctx T) : Ctx T :=
  fold_left (fun c s => snd (finish s c)) l c.

Definition complete {T} (k : call T) : M T unit :=
  fun c =>
    let '(c1, a, spawned) := k c in
    finish a (finish_all spawned c1).

(** *** The event loop of a connection *)

(** What a connection class provides. *)
Record Handlers (T : Type) := {
  on_event : Event -> call T;
  on_message : ClientMsg -> call T;
  on_cleanup : M T unit;
  id_of : T -> option Bus.SubId
}.
Arguments on_event {T} h.
Arguments on_message {T} h.
Arguments on_cleanup {T} h.
Arguments id_of {T} h.

(** A connection and the calls of its handlers that are suspended. *)
Record Sys (T : Type) := mkSys {
  sys_ctx : Ctx T;
  sys_pending : list (async T)
}.
Arguments mkSys {T} sys_ctx sys_pending.
Arguments sys_ctx {T} s.
Arguments sys_pending {T} s.

(** What the event loop does next: resume the [i]-th suspended call,
    dispatch a published event, hand over a client message, or close the
    connection. *)
Inductive tick :=
| Resume (i : nat)
| Publish (data : Event)
| Receive (msg : ClientMsg)
| Close.

(** Modelled from the spec: the connection framework of [service/server]
    is not among the sources. Closing the transport runs [cleanup] at
    once; this is so too when a handler calls [this.close()]. *)
Definition closing {T} (h : Handlers T) (was_closed : bool) (c : Ctx T) : Ctx T :=
  if negb was_closed && closed c then snd (on_cleanup h c) else c.

(** The state after a stretch of a handler has run. *)
Definition absorb {T} (h : Handlers T) (was_closed : bool) (others : list (async T))
    (result : Ctx T * async T * list (async T)) : Sys T :=
  let '(c, a, spawned) := result in
  mkSys (closing h was_closed c) (others ++ pending_of a ++ spawned).

(** Modelled from the spec: one turn of the event loop. A published event
    reaches the callback of the connection if and only if the
    connection's id is in the subscription table; a client message
    reaches an open connection; a close runs [cleanup]. *)
Definition turn {T} (h : Handlers T) (s : Sys T) (t : tick) : Sys T :=
  let c := sys_ctx s in
  match t with
  | Resume i =>
      match sys_pending s !! i with
      | Some (Awaiting resume) => absorb h (closed c) (delete i (sys_pending s)) (resume c)
      | _ => s
      end
  | Publish data =>
      if Bus.subscribed (bus c) "record_change" (id_of h (this c))
      then absorb h (closed c) (sys_pending s) (on_event h data c)
      else s
  | Receive msg =>
      if closed c then s
      else absorb h (closed c) (sys_pending s) (on_message h msg c)
  | Close =>
      if closed c then s
      else mkSys (shutdown (on_cleanup h) c) (sys_pending s)
  end.

Definition play {T} (h : Handlers T) (ticks : list tick) (s : Sys T) : Sys T :=
  fold_left (turn h) ticks s.

(** A connection is opened: [prepare] is called. *)
Definition connect {T} (h : Handlers T) (prepare : call T) (init : T) (b : Bus.table) : Sys T :=
  absorb h false [] (prepare (start init b)).

Definition detail_handlers (env : Env) : Handlers Detail.state :=
  {| on_event := DetailAsync.onRecordChange env;
     on_message := fun _ => settle (Done tt);
     on_cleanup := DetailAsync.cleanup;
     id_of := Detail.this_id |}.

Definition main_handlers (env : Env) : Handlers Main.state :=
  {| on_event := MainAsync.onRecordChange env;
     on_message := MainAsync.message env;
     on_cleanup := MainAsync.cleanup;
     id_of := Main.this_id |}.

(** * Properties *)

(** ** The bus table *)

Section BusFacts.

Implicit Types (t : Bus.table) (i : Bus.SubId) (topic : string).

Lemma listeners_in_ids t topic : Bus.listeners t topic ⊆ Bus.ids t.
Proof.
  unfold Bus.listeners, Bus.ids.
  destruct (t !! topic) as [s|] eqn:E; simpl; [|set_solver].
  intros x Hx. apply elem_of_union_list. exists s. split; [|done].
  apply list_elem_of_In, in_map_iff. exists (topic, s). split; [done|].
  apply list_elem_of_In, elem_of_map_to_list. done.
Qed.

Lemma fresh_unregistered t topic : fresh (Bus.ids t) ∉ Bus.listeners t topic.
Proof.
  intros H. apply (is_fresh (Bus.ids t)). by apply (listeners_in_ids t topic).
Qed.

Lemma listeners_add i tp t topic :
  Bus.listeners (Bus.add i tp t) topic =
  if decide (tp = topic) then {[i]} ∪ Bus.listeners t topic else Bus.listeners t topic.
Proof.
  unfold Bus.add, Bus.listeners at 1. case_decide as E.
  - subst. by rewrite lookup_insert_eq.
  - by rewrite lookup_insert_ne.
Qed.

Lemma listeners_remove i tp t topic :
  Bus.listeners (Bus.remove i tp t) topic =
  if decide (tp = topic) then Bus.listeners t topic ∖ {[i]} else Bus.listeners t topic.
Proof.
  unfold Bus.remove, Bus.listeners. case_decide as E.
  - subst. rewrite lookup_alter_eq.
    destruct (t !! topic); simpl; [done|by rewrite empty_difference_L].
  - by rewrite lookup_alter_ne.
Qed.

(** Subscribing and then unsubscribing the returned id leaves, under every
    topic, exactly the ids registered before. *)
Lemma unsubscribe_subscribe t topic :
  let '(i, t') := Bus.subscribe ["record_change"] t in
  Bus.listeners (Bus.unsubscribe ["record_change"] (Some i) t') topic
  = Bus.listeners t topic.
Proof.
  simpl. rewrite listeners_remove, listeners_add.
  case_decide; [|done]. subst.
  pose proof (fresh_unregistered t "record_change") as Hfresh.
  apply set_eq. intros x.
  rewrite elem_of_difference, elem_of_union, elem_of_singleton.
  split; [tauto|]. intros Hx. split; [tauto|]. congruence.
Qed.

Lemma subscribe_registers t :
  let '(i, t') := Bus.subscribe ["record_change"] t in
  i ∈ Bus.listeners t' "record_change".
Proof.
  simpl. rewrite listeners_add. case_decide; [|done].
  apply elem_of_union_l. by apply elem_of_singleton.
Qed.

End BusFacts.

(** ** What an invocation may change *)

Section Frame.

Context {T : Type}.

Variable P : list effect -> Prop.
Hypothesis P_nil : P [].
Hypothesis P_app : forall a b, P a -> P b -> P (a ++ b).

Lemma adds_refl (c : Ctx T) : adds P c c.
Proof.
  repeat split. exists []. split; [by rewrite app_nil_r|done].
Qed.

Lemma adds_trans (c1 c2 c3 : Ctx T) : adds P c1 c2 -> adds P c2 c3 -> adds P c1 c3.
Proof.
  intros (H1 & H2 & H3 & tr & H4 & H5) (K1 & K2 & K3 & tr' & K4 & K5).
  repeat split; try congruence.
  exists (tr ++ tr'). split; [|by apply P_app].
  by rewrite K4, H4, app_assoc.
Qed.

Lemma for_each_adds {A} (f : A -> M T unit) (xs : list A) :
  (forall x c, adds P c (snd (f x c))) ->
  forall c, adds P c (snd (for_each f xs c)).
Proof.
  intros Hf. induction xs as [|x xs IH]; intros c; simpl.
  - apply adds_refl.
  - unfold bind. specialize (Hf x c).
    destruct (f x c) as [[[]|e] c1]; simpl in *; [|done].
    eapply adds_trans; [exact Hf|apply IH].
Qed.

Lemma spawn_adds {A} (m : M T A) (c : Ctx T) :
  adds P c (snd (m c)) -> adds P c (snd (spawn m c)).
Proof. done. Qed.

Lemma deliver_adds (id_of : T -> option Bus.SubId) (cb : Event -> M T unit) data :
  (forall c, adds P c (snd (cb data c))) ->
  forall c, adds P c (snd (deliver id_of cb data c)).
Proof.
  intros Hcb c. unfold deliver.
  destruct (Bus.subscribed _ _ _); [apply Hcb|apply adds_refl].
Qed.

End Frame.

(** ** One invocation of each connection handler *)

Section Invocations.

Variable env : Env.

Lemma main_onRecordChange_run data (c : Ctx Main.state) :
  Main.onRecordChange env data c =
  (Done tt,
   if Main.other_contest (ev_rdoc data) (this c) then c
   else if Main.hidden_from env
             (problem_get (db env) (Main.this_domainId (this c)) (pid (ev_rdoc data)))
   then c
   else mkCtx (this c) (bus c) (closed c)
          (trace c ++
             [ERender "record_main_tr.html" (row_ctx env (this c) (ev_rdoc data));
              ESend (MsgHtml (render env "record_main_tr.html"
                                (row_ctx env (this c) (ev_rdoc data))))])).
Proof.
  unfold Main.onRecordChange, row_ctx. run.
  destruct (Main.other_contest _ _); [done|].
  destruct (Main.hidden_from _ _); [done|].
  by rewrite <- app_assoc.
Qed.

Lemma detail_onRecordChange_run data (c : Ctx Detail.state) :
  Detail.onRecordChange env data c =
  (Done tt,
   if Detail.other_record (ev_rdoc data) (this c) then c
   else mkCtx (this c) (bus c) (closed c)
          (trace c ++
             match ev_set data with
             | Some set => [ESend (MsgPatch set (ev_push data))]
             | None =>
                 [ERender "record_detail_status.html" (CtxRdoc (ev_rdoc data));
                  ERender "record_detail_summary.html" (CtxRdoc (ev_rdoc data));
                  ESend (MsgSnapshot
                           (render env "record_detail_status.html" (CtxRdoc (ev_rdoc data)))
                           (render env "record_detail_summary.html" (CtxRdoc (ev_rdoc data))))]
             end)).
Proof.
  unfold Detail.onRecordChange. run.
  destruct (Detail.other_record _ _); [done|].
  destruct (ev_set data); simpl; [done|].
  by rewrite <- !app_assoc.
Qed.

Variable P : list effect -> Prop.
Hypothesis P_nil : P [].
Hypothesis P_app : forall a b, P a -> P b -> P (a ++ b).

Lemma main_onRecordChange_adds data (c : Ctx Main.state) :
  (Main.other_contest (ev_rdoc data) (this c) = false ->
   Main.hidden_from env
     (problem_get (db env) (Main.this_domainId (this c)) (pid (ev_rdoc data))) = false ->
   P [ERender "record_main_tr.html" (row_ctx env (this c) (ev_rdoc data));
      ESend (MsgHtml (render env "record_main_tr.html"
                        (row_ctx env (this c) (ev_rdoc data))))]) ->
  adds P c (snd (Main.onRecordChange env data c)).
Proof.
  intros HP. rewrite main_onRecordChange_run. simpl.
  destruct (Main.other_contest _ _); [by apply adds_refl|].
  destruct (Main.hidden_from _ _); [by apply adds_refl|].
  repeat split. eexists. split; [reflexivity|by apply HP].
Qed.

Lemma detail_onRecordChange_adds data (c : Ctx Detail.state) :
  (forall tr, P tr) ->
  adds P c (snd (Detail.onRecordChange env data c)).
Proof.
  intros HP. rewrite detail_onRecordChange_run. simpl.
  destruct (Detail.other_record _ _); [by apply adds_refl|].
  repeat split. eexists. split; [reflexivity|apply HP].
Qed.

End Invocations.

(** ** Opening a connection *)

Section Opening.

Variable env : Env.

Lemma record_get_id domainId rid rdoc :
  record_get (db env) domainId rid = Some rdoc -> _id rdoc = rid.
Proof.
  unfold record_get. intros H. apply find_some in H as [_ H].
  by apply String.eqb_eq.
Qed.

(** [prepare] of a list connection either ends without a subscription
    (the connection closed, or an error of the contest lookup) and
    without having rendered or sent anything, or registers one fresh id
    for [record_change] and stores it in [this.id]. *)
Lemma main_prepare_cases domainId tid (b : Bus.table) :
  let r := Main.prepare env domainId tid (start Main.init b) in
  (Main.this_id (this (snd r)) = None /\ bus (snd r) = b /\
   (closed (snd r) = true \/ exists e, fst r = Threw e) /\
   sent (trace (snd r)) = [] /\ rendered (trace (snd r)) = [] /\
   Main.this_tid (this (snd r)) = Js.Undefined /\
   Main.this_domainId (this (snd r)) = Some domainId)
  \/
  (fst r = Done tt /\ closed (snd r) = false /\
   Main.this_id (this (snd r)) = Some (fresh (Bus.ids b)) /\
   bus (snd r) = Bus.add (fresh (Bus.ids b)) "record_change" b /\
   Main.this_domainId (this (snd r)) = Some domainId /\
   Main.this_tid (this (snd r)) = filter_of tid /\
   trace (snd r) = []).
Proof.
  unfold Main.prepare, start, filter_of. run.
  destruct (Js.truthy tid); simpl.
  - destruct (contest_get _ _ _ _) as [tdoc|e]; simpl.
    + destruct (canShowRecord env tdoc None); simpl.
      * right. repeat split.
      * left. repeat split. by left.
    + left. repeat split. right. by exists e.
  - right. repeat split.
Qed.

(** [prepare] of a detail connection either ends without a subscription
    and without having rendered or sent anything, or the record exists
    and is authorized: one fresh id is registered and stored, and the
    snapshot of the fetched record has been rendered and sent. *)
Lemma detail_prepare_cases domainId rid (b : Bus.table) :
  let r := Detail.prepare env domainId rid (start Detail.init b) in
  (Detail.this_id (this (snd r)) = None /\ bus (snd r) = b /\
   (closed (snd r) = true \/ exists e, fst r = Threw e) /\
   sent (trace (snd r)) = [] /\ rendered (trace (snd r)) = [] /\
   (forall rdoc, record_get (db env) domainId rid = Some rdoc ->
                 authorized env domainId rdoc = false))
  \/
  (fst r = Done tt /\ closed (snd r) = false /\
   Detail.this_id (this (snd r)) = Some (fresh (Bus.ids b)) /\
   bus (snd r) = Bus.add (fresh (Bus.ids b)) "record_change" b /\
   Detail.this_rid (this (snd r)) = Some rid /\
   exists rdoc, record_get (db env) domainId rid = Some rdoc /\
                authorized env domainId rdoc = true /\
                trace (snd r) = snapshot_effects env rdoc).
Proof.
  unfold Detail.prepare, start, authorized.
  destruct (record_get _ _ _) as [rdoc|] eqn:Hget; run.
  - assert (Hsame : Detail.other_record rdoc
                      (Detail.set_id (fresh (Bus.ids b))
                         (Detail.set_rid rid Detail.init)) = false).
    { unfold Detail.other_record. simpl.
      rewrite (record_get_id _ _ _ Hget). by rewrite String.eqb_refl. }
    destruct (contest rdoc) as [ct|] eqn:Hct; simpl.
    + destruct (contest_get _ _ _ _) as [tdoc|e] eqn:Hcg; simpl.
      * destruct (canShowRecord env tdoc None) eqn:Hshow; simpl.
        -- right. rewrite detail_onRecordChange_run. simpl. rewrite Hsame.
           split_and!; try done. exists rdoc. by rewrite Hct, Hcg.
        -- left. split_and!; try done; [by left|].
           intros ? [= <-]. by rewrite Hct, Hcg.
      * left. split_and!; try done; [right; by exists e|].
        intros ? [= <-]. by rewrite Hct, Hcg.
    + right. rewrite detail_onRecordChange_run. simpl. rewrite Hsame.
      split_and!; try done. exists rdoc. by rewrite Hct.
  - left. split_and!; try done. right. by eexists.
Qed.

Lemma main_step_frame a (c : Ctx Main.state) :
  adds (fun _ => True) c (snd (spawn (MainSession.step env a) c)).
Proof.
  apply spawn_adds. destruct a as [data|msg]; simpl.
  - apply deliver_adds; [done|]. intros c0.
    by apply main_onRecordChange_adds.
  - unfold Main.message. destruct (rids msg) as [ids|]; [|by apply adds_refl].
    destruct (mapM Js.ObjectID_of_string ids) as [oids|]; [|by apply adds_refl].
    unfold bind, get_this. simpl.
    apply for_each_adds; [done|done|]. intros rdoc c0.
    apply spawn_adds. by apply main_onRecordChange_adds.
Qed.

Lemma detail_step_frame a (c : Ctx Detail.state) :
  adds (fun _ => True) c (snd (spawn (DetailSession.step env a) c)).
Proof.
  apply spawn_adds. destruct a as [data|msg]; simpl.
  - apply deliver_adds; [done|]. intros c0.
    by apply detail_onRecordChange_adds.
  - by apply adds_refl.
Qed.

End Opening.

(** ** Subscriptions do not outlive their connection *)

Section Closing.

Variable env : Env.

Lemma released_unsubscribed (b : Bus.table) :
  released b (Bus.unsubscribe ["record_change"] None b) None.
Proof. by intros topic. Qed.

Lemma released_fresh (b : Bus.table) :
  let i := fresh (Bus.ids b) in
  released b (Bus.unsubscribe ["record_change"] (Some i) (Bus.add i "record_change" b))
           (Some i).
Proof.
  intros i topic. subst i.
  pose proof (unsubscribe_subscribe b topic) as Heq. simpl in Heq.
  simpl. split; [|exact Heq].
  rewrite Heq. apply bool_decide_eq_false, fresh_unregistered.
Qed.

Lemma main_run_released domainId tid acts (b : Bus.table) :
  let c' := MainSession.run env domainId tid acts b in
  closed c' = true /\ released b (bus c') (Main.this_id (this c')).
Proof.
  pose proof (main_prepare_cases env domainId tid b) as H.
  unfold MainSession.run, lifecycle, serve. simpl in *.
  destruct (Main.prepare env domainId tid (start Main.init b)) as [r c1].
  simpl in H. split; [done|].
  destruct H as [(Hid & Hb & Hc & _) | (Hr & Hc & Hid & Hb & _)].
  - assert (Hsame : snd (match r with
                         | Done _ => if closed c1 then (Done tt, c1)
                                     else for_each (fun a => spawn (MainSession.step env a)) acts c1
                         | Threw e => (Threw e, c1)
                         end) = c1).
    { destruct Hc as [Hc|[e ->]]; [|done]. destruct r; [by rewrite Hc|done]. }
    rewrite Hsame. unfold shutdown, Main.cleanup. run.
    rewrite Hid, Hb. apply released_unsubscribed.
  - subst r. rewrite Hc.
    destruct (for_each_adds (fun _ => True) I (fun _ _ _ _ => I)
                (fun a => spawn (MainSession.step env a)) acts
                (main_step_frame env) c1) as (Hthis & Hbus & _).
    unfold shutdown, Main.cleanup. run.
    rewrite Hthis, Hbus, Hid, Hb. apply released_fresh.
Qed.

Lemma detail_run_released domainId rid acts (b : Bus.table) :
  let c' := DetailSession.run env domainId rid acts b in
  closed c' = true /\ released b (bus c') (Detail.this_id (this c')).
Proof.
  pose proof (detail_prepare_cases env domainId rid b) as H.
  unfold DetailSession.run, lifecycle, serve. simpl in *.
  destruct (Detail.prepare env domainId rid (start Detail.init b)) as [r c1].
  simpl in H. split; [done|].
  destruct H as [(Hid & Hb & Hc & _) | (Hr & Hc & Hid & Hb & _)].
  - assert (Hsame : snd (match r with
                         | Done _ => if closed c1 then (Done tt, c1)
                                     else for_each (fun a => spawn (DetailSession.step env a)) acts c1
                         | Threw e => (Threw e, c1)
                         end) = c1).
    { destruct Hc as [Hc|[e ->]]; [|done]. destruct r; [by rewrite Hc|done]. }
    rewrite Hsame. unfold shutdown, Detail.cleanup. run.
    rewrite Hid, Hb. apply released_unsubscribed.
  - subst r. rewrite Hc.
    destruct (for_each_adds (fun _ => True) I (fun _ _ _ _ => I)
                (fun a => spawn (DetailSession.step env a)) acts
                (detail_step_frame env) c1) as (Hthis & Hbus & _).
    unfold shutdown, Detail.cleanup. run.
    rewrite Hthis, Hbus, Hid, Hb. apply released_fresh.
Qed.

(** While it is open, a session that passed [prepare] is registered: the
    release above is not vacuous. *)
Lemma main_open_subscribed domainId tid acts (b : Bus.table) c :
  MainSession.open env domainId tid acts b = (Done tt, c) ->
  closed c = false ->
  Bus.subscribed (bus c) "record_change" (Main.this_id (this c)) = true.
Proof.
  pose proof (main_prepare_cases env domainId tid b) as H.
  unfold MainSession.open, serve. simpl in *.
  destruct (Main.prepare env domainId tid (start Main.init b)) as [r c1].
  simpl in H.
  destruct H as [(Hid & Hb & Hc & _) | (Hr & Hc & Hid & Hb & _)].
  - destruct Hc as [Hc|[e ->]]; [|done].
    destruct r; [|done]. rewrite Hc. intros [= <-]. congruence.
  - subst r. rewrite Hc.
    destruct (for_each_adds (fun _ => True) I (fun _ _ _ _ => I)
                (fun a => spawn (MainSession.step env a)) acts
                (main_step_frame env) c1) as (Hthis & Hbus & _).
    intros Heq _. rewrite Heq in Hthis, Hbus. simpl in *.
    rewrite Hthis, Hbus, Hid, Hb. unfold Bus.subscribed.
    apply bool_decide_eq_true. apply (subscribe_registers b).
Qed.

(** When the connection is closed only once [prepare] has run to its end,
    nothing is left on the bus: a list or detail connection session that
    reaches the closed state -- after [prepare] closed it, after an error
    of [prepare], or after it was open and handled any sequence of events
    and client messages -- leaves the subscription table without an entry
    for the id held in its [this.id], under any topic; the table then
    has, under every topic, exactly the listeners it had before the
    session was opened. A close that arrives while [prepare] is suspended
    is another matter, for which see the asynchronous execution below. *)
Theorem closed_session_holds_no_subscription domainId acts (b : Bus.table) :
  (forall tid,
      let c' := MainSession.run env domainId tid acts b in
      closed c' = true /\ released b (bus c') (Main.this_id (this c')))
  /\
  (forall rid,
      let c' := DetailSession.run env domainId rid acts b in
      closed c' = true /\ released b (bus c') (Detail.this_id (this c'))).
Proof.
  split; intros x.
  - apply main_run_released.
  - apply detail_run_released.
Qed.

End Closing.

(** ** Invariants of an open session *)

Section FrameInv.

Context {T : Type}.
Variable P : list effect -> Prop.
Hypothesis P_nil : P [].
Hypothesis P_app : forall a b, P a -> P b -> P (a ++ b).

(** A property of the fields of [this]; since no step changes them, it
    holds throughout once it holds. *)
Variable Inv : T -> Prop.

Lemma for_each_adds_inv {A} (f : A -> M T unit) (xs : list A) :
  (forall x c, Inv (this c) -> adds P c (snd (f x c))) ->
  forall c, Inv (this c) -> adds P c (snd (for_each f xs c)).
Proof.
  intros Hf. induction xs as [|x xs IH]; intros c Hc; simpl.
  - by apply adds_refl.
  - unfold bind. specialize (Hf x c Hc).
    destruct (f x c) as [[[]|e] c1]; simpl in *; [|done].
    eapply adds_trans; [exact P_app|exact Hf|].
    apply IH. destruct Hf as (-> & _). exact Hc.
Qed.

End FrameInv.


(** ** The contest filter of a list session *)

Section ContestFilter.

Variable env : Env.

Lemma rows_of_nil Q : rows_of env Q [].
Proof. split; [done|constructor]. Qed.

Lemma rows_of_app Q a b : rows_of env Q a -> rows_of env Q b -> rows_of env Q (a ++ b).
Proof.
  unfold rows_of, sent, rendered. intros [Ha1 Ha2] [Hb1 Hb2].
  rewrite !omap_app, map_app. split; [congruence|by apply Forall_app].
Qed.

Lemma rows_of_impl (Q Q' : Rdoc -> Prop) tr :
  (forall r, Q r -> Q' r) -> rows_of env Q tr -> rows_of env Q' tr.
Proof.
  intros HQ [H1 H2]. split; [done|].
  eapply Forall_impl; [exact H2|]. intros x. apply HQ.
Qed.

(** A record that gets past the contest test is within the filter. *)
Lemma other_contest_within rdoc self :
  Main.other_contest rdoc self = false ->
  within_filter (Main.this_tid self) rdoc.
Proof.
  unfold Main.other_contest, within_filter. intros H ct Hct.
  rewrite Hct in H. destruct (Main.this_tid self) as [|s|h]; simpl in *; try done.
  apply negb_false_iff, String.eqb_eq in H. by subst.
Qed.

(** A record of a contest other than the designated one fails it,
    whatever the representation of the filter; so does every contest
    record when there is no filter. *)
Lemma other_contest_differs rdoc self ct :
  contest rdoc = Some ct ->
  Js.designates (Main.this_tid self) <> Some (tid ct) ->
  Main.other_contest rdoc self = true.
Proof.
  unfold Main.other_contest. intros -> Hne.
  destruct (Main.this_tid self) as [|s|h]; simpl in *; try done.
  apply negb_true_iff, String.eqb_neq. intros E. apply Hne. by rewrite E.
Qed.

Lemma main_onRecordChange_rows (Q : Rdoc -> Prop) data (c : Ctx Main.state) :
  (shown env (this c) (ev_rdoc data) = true -> Q (ev_rdoc data)) ->
  adds (rows_of env Q) c (snd (Main.onRecordChange env data c)).
Proof.
  intros HQ. apply main_onRecordChange_adds; [apply rows_of_nil|].
  intros Hc Hh. split; [done|].
  repeat constructor. simpl. apply HQ. unfold shown. by rewrite Hc, Hh.
Qed.

Lemma main_step_rows (Q : Rdoc -> Prop) (Inv : Main.state -> Prop) :
  (forall self rdoc, Inv self -> shown env self rdoc = true -> Q rdoc) ->
  forall a (c : Ctx Main.state),
    Inv (this c) ->
    adds (rows_of env Q) c (snd (spawn (MainSession.step env a) c)).
Proof.
  intros HQ a c Hinv. apply spawn_adds. destruct a as [data|msg]; simpl.
  - unfold deliver. destruct (Bus.subscribed _ _ _).
    + apply main_onRecordChange_rows. by apply HQ.
    + apply adds_refl, rows_of_nil.
  - unfold Main.message. destruct (rids msg) as [ids|];
      [|apply adds_refl, rows_of_nil].
    destruct (mapM Js.ObjectID_of_string ids) as [oids|];
      [|apply adds_refl, rows_of_nil].
    unfold bind, get_this. simpl.
    apply (for_each_adds_inv _ (rows_of_nil _) (rows_of_app _) Inv); [|done].
    intros rdoc c0 Hc0. apply spawn_adds.
    apply main_onRecordChange_rows. by apply HQ.
Qed.

(** Throughout a list session opened in domain [domainId] with parameter
    [filter], the rows rendered and sent are rows of records that got past
    both tests, and the fields of [this] are those assigned by
    [prepare]. *)
Lemma main_open_rows (Q : Rdoc -> Prop) domainId filter acts (b : Bus.table) :
  (forall self rdoc,
      Main.this_domainId self = Some domainId ->
      Main.this_tid self = filter_of filter ->
      shown env self rdoc = true -> Q rdoc) ->
  let c := snd (MainSession.open env domainId filter acts b) in
  rows_of env Q (trace c) /\
  Main.this_domainId (this c) = Some domainId /\
  (Main.this_tid (this c) = filter_of filter \/
   Main.this_tid (this c) = Js.Undefined).
Proof.
  intros HQ.
  pose proof (main_prepare_cases env domainId filter b) as H.
  unfold MainSession.open, serve. simpl in *.
  destruct (Main.prepare env domainId filter (start Main.init b)) as [r c1].
  simpl in H.
  destruct H as [(Hid & Hb & Hc & Hs & Hr & Ht & Hd)
                | (Hr & Hc & Hid & Hb & Hd & Ht & Htr)].
  - assert (Hsame : snd (match r with
                         | Done _ => if closed c1 then (Done tt, c1)
                                     else for_each (fun a => spawn (MainSession.step env a)) acts c1
                         | Threw e => (Threw e, c1)
                         end) = c1).
    { destruct Hc as [Hc|[e ->]]; [|done]. destruct r; [by rewrite Hc|done]. }
    rewrite Hsame. split_and!; [|done|by right].
    unfold rows_of. rewrite Hs, Hr. split; [done|constructor].
  - subst r. rewrite Hc.
    destruct (for_each_adds_inv _ (rows_of_nil Q) (rows_of_app Q)
                (fun self => Main.this_domainId self = Some domainId /\
                             Main.this_tid self = filter_of filter)
                (fun a => spawn (MainSession.step env a)) acts
                (main_step_rows Q _ (fun self rdoc Hi => HQ self rdoc (proj1 Hi) (proj2 Hi)))
                c1 (conj Hd Ht))
      as (Hthis & _ & _ & tr & Htrace & Hrows).
    rewrite Htrace, Htr, Hthis. simpl. split_and!; [done|done|by left].
Qed.

Lemma shown_within self rdoc :
  shown env self rdoc = true -> within_filter (Main.this_tid self) rdoc.
Proof.
  unfold shown. intros [H _]%andb_true_iff.
  apply other_contest_within. by apply negb_true_iff.
Qed.

(** What the contest test does in a list session whose contest filter is
    set to [C]: every row it writes to its transport, on a bus event or
    on a resynchronisation request, is the rendering of a record that is
    either associated with contest [C] or associated with no contest at
    all; an event for a record associated with a contest other than [C]
    is dropped without any effect; and a record with no contest
    association gets past the test: unless the hidden-problem test drops
    it, its row is rendered and sent, in a filtered session as in an
    unfiltered one. *)
Theorem filtered_session_rows domainId filter acts (b : Bus.table) (C : ObjectID) :
  Js.truthy filter = true ->
  Js.designates filter = Some C ->
  let c := snd (MainSession.open env domainId filter acts b) in
  rows_of env (fun r => forall ct, contest r = Some ct -> tid ct = C) (trace c)
  /\ (forall data ct,
        contest (ev_rdoc data) = Some ct -> tid ct <> C ->
        Main.onRecordChange env data c = (Done tt, c))
  /\ (forall data,
        contest (ev_rdoc data) = None ->
        Main.hidden_from env
          (problem_get (db env) (Main.this_domainId (this c)) (pid (ev_rdoc data))) = false ->
        snd (Main.onRecordChange env data c) =
        mkCtx (this c) (bus c) (closed c)
              (trace c ++
                 [ERender "record_main_tr.html" (row_ctx env (this c) (ev_rdoc data));
                  ESend (row_message env (row_ctx env (this c) (ev_rdoc data)))])).
Proof.
  intros Htruthy HC c.
  destruct (main_open_rows (within_filter (filter_of filter)) domainId filter acts b)
    as (Hrows & _ & Htid).
  { intros self rdoc _ <-. apply shown_within. }
  fold c in Hrows, Htid. unfold filter_of in *. rewrite Htruthy in *.
  split_and!.
  - eapply rows_of_impl; [|exact Hrows].
    intros r Hr ct Hct. specialize (Hr ct Hct). congruence.
  - intros data ct Hct Hne. rewrite main_onRecordChange_run.
    rewrite (other_contest_differs _ _ ct); [done|done|].
    destruct Htid as [-> | ->]; [|done]. rewrite HC. congruence.
  - intros data Hnone Hvisible. rewrite main_onRecordChange_run. simpl.
    unfold Main.other_contest. by rewrite Hnone, Hvisible.
Qed.

(** C9. In a list session opened with no contest filter, [this.tid]
    stays unassigned; every row the session writes to its transport, on
    a bus event or on a resynchronisation request, is the rendering of a
    record that has no contest association; and an event whose record
    carries a contest association is dropped without any effect. *)
Theorem unfiltered_session_rows domainId filter acts (b : Bus.table) :
  Js.truthy filter = false ->
  let c := snd (MainSession.open env domainId filter acts b) in
  Main.this_tid (this c) = Js.Undefined
  /\ rows_of env (fun r => contest r = None) (trace c)
  /\ (forall data ct,
        contest (ev_rdoc data) = Some ct ->
        Main.onRecordChange env data c = (Done tt, c)).
Proof.
  intros Hfalsy c.
  destruct (main_open_rows (within_filter (filter_of filter)) domainId filter acts b)
    as (Hrows & _ & Htid).
  { intros self rdoc _ <-. apply shown_within. }
  fold c in Hrows, Htid. unfold filter_of in *. rewrite Hfalsy in *.
  assert (Hundef : Main.this_tid (this c) = Js.Undefined) by (by destruct Htid).
  split_and!; [done| |].
  - eapply rows_of_impl; [|exact Hrows].
    intros r Hr. destruct (contest r) as [ct|] eqn:Hct; [|done].
    by specialize (Hr ct Hct).
  - intros data ct Hct. rewrite main_onRecordChange_run.
    rewrite (other_contest_differs _ _ ct); [done|done|].
    by rewrite Hundef.
Qed.

End ContestFilter.

(** C2, evaluated where the code departs from it: a session filtered to
    contest [T1] writes the row of [R1], a record with no contest
    association (whose contest is therefore not [T1]). The guard of the
    contest test lets every contest-less record through, where the list
    page of the same filter selects the records of that contest only. *)
Lemma filtered_session_sends_uncontested_row :
  let c := snd (MainSession.open Demo.env "system" (Js.Str Demo.T1)
                  [Published (synthetic Demo.R1)] ∅) in
  Js.designates (Main.this_tid (this c)) = Some Demo.T1
  /\ tid <$> contest Demo.R1 <> Some Demo.T1
  /\ sent (trace c) = [MsgHtml "record_main_tr.html#5e8f1c0000000000000000a1"].
Proof. vm_compute. split_and!; [reflexivity|discriminate|reflexivity]. Qed.

Lemma filtered_session_rows_witness :
  let c := snd (MainSession.open Demo.env "system" (Js.Str Demo.T1)
                  [Published (synthetic Demo.R3); Published (synthetic Demo.R1)] ∅) in
  rows_of Demo.env (fun r => forall ct, contest r = Some ct -> tid ct = Demo.T1) (trace c)
  /\ Main.onRecordChange Demo.env (synthetic Demo.R3) c = (Done tt, c)
  /\ sent (trace (snd (Main.onRecordChange Demo.env (synthetic Demo.R1) c))) =
     [MsgHtml "record_main_tr.html#5e8f1c0000000000000000a1";
      MsgHtml "record_main_tr.html#5e8f1c0000000000000000a1"].
Proof.
  intros c.
  destruct (filtered_session_rows Demo.env "system" (Js.Str Demo.T1)
              [Published (synthetic Demo.R3); Published (synthetic Demo.R1)] ∅
              Demo.T1 eq_refl eq_refl) as (Hrows & Hdrop & Hpass).
  split; [exact Hrows|]. split.
  - apply (Hdrop (synthetic Demo.R3) {| tid := Demo.T2; type := 30 |} eq_refl).
    discriminate.
  - fold c in Hpass. rewrite (Hpass (synthetic Demo.R1) eq_refl eq_refl).
    reflexivity.
Defined.

Lemma unfiltered_session_rows_witness :
  let c := snd (MainSession.open Demo.env "system" Js.Undefined
                  [Published (synthetic Demo.R3); Published (synthetic Demo.R1)] ∅) in
  Js.truthy Js.Undefined = false
  /\ rows_of Demo.env (fun r => contest r = None) (trace c)
  /\ Main.onRecordChange Demo.env (synthetic Demo.R3) c = (Done tt, c).
Proof.
  intros c. split; [reflexivity|].
  destruct (unfiltered_session_rows Demo.env "system" Js.Undefined
              [Published (synthetic Demo.R3); Published (synthetic Demo.R1)] ∅
              eq_refl) as (_ & Hrows & Hdrop).
  split; [exact Hrows|].
  apply (Hdrop (synthetic Demo.R3) {| tid := Demo.T2; type := 30 |} eq_refl).
Defined.

(** ** Hidden problems *)

Section HiddenProblems.

Variable env : Env.

(** The list connection does test for hidden problems. For a viewer
    lacking the hidden-problem permission, a list session never writes a
    row for a record whose problem is hidden, neither on a bus event nor
    on a resynchronisation request: every row it renders and sends is for
    a record whose problem, if found, is not hidden, and an event for a
    record tied to a hidden problem is dropped entirely, without any
    effect. *)
Theorem list_session_hides_hidden_problems domainId filter acts (b : Bus.table) :
  hasPerm (user env) PERM_VIEW_PROBLEM_HIDDEN = false ->
  let c := snd (MainSession.open env domainId filter acts b) in
  rows_of env
    (fun r => forall p,
         problem_get (db env) (Some domainId) (pid r) = Some p -> hidden p = false)
    (trace c)
  /\ (forall data p,
        problem_get (db env) (Some domainId) (pid (ev_rdoc data)) = Some p ->
        hidden p = true ->
        Main.onRecordChange env data c = (Done tt, c)).
Proof.
  intros Hperm c.
  destruct (main_open_rows env
              (fun r => forall p,
                   problem_get (db env) (Some domainId) (pid r) = Some p ->
                   hidden p = false)
              domainId filter acts b) as (Hrows & Hdom & _).
  { intros self rdoc Hd _ Hshown p Hp.
    unfold shown in Hshown. apply andb_true_iff in Hshown as [_ Hh].
    rewrite Hd, Hp in Hh. simpl in Hh. rewrite Hperm in Hh.
    destruct (hidden p); [done|done]. }
  fold c in Hrows, Hdom. split; [exact Hrows|].
  intros data p Hp Hhidden. rewrite main_onRecordChange_run.
  rewrite Hdom, Hp. simpl. rewrite Hhidden, Hperm. simpl.
  by destruct (Main.other_contest _ _).
Qed.

End HiddenProblems.

Lemma list_session_hides_hidden_problems_witness :
  let c := snd (MainSession.open Demo.env "system" Js.Undefined
                  [Published (synthetic Demo.R2);
                   Received {| rids := Some [_id Demo.R1; _id Demo.R2] |}] ∅) in
  hasPerm (user Demo.env) PERM_VIEW_PROBLEM_HIDDEN = false
  /\ sent (trace c) = [MsgHtml "record_main_tr.html#5e8f1c0000000000000000a1"]
  /\ Main.onRecordChange Demo.env (synthetic Demo.R2) c = (Done tt, c).
Proof.
  intros c. split; [reflexivity|]. split; [reflexivity|].
  destruct (list_session_hides_hidden_problems Demo.env "system" Js.Undefined
              [Published (synthetic Demo.R2);
               Received {| rids := Some [_id Demo.R1; _id Demo.R2] |}] ∅ eq_refl)
    as (_ & Hdrop).
  apply (Hdrop (synthetic Demo.R2) Demo.P2 eq_refl eq_refl).
Defined.

(** C6, evaluated where the code departs from it. The detail connection
    has no such test: a viewer lacking the hidden-problem permission who
    opens the detail connection of [R2], whose problem [P2] is hidden, is
    sent the snapshot of [R2]; the list connection of the same viewer
    drops the event for [R2]. *)
Lemma detail_session_sends_hidden_problem_record :
  let c := snd (DetailSession.open Demo.env "system" (_id Demo.R2) [] ∅) in
  let rows := snd (MainSession.open Demo.env "system" Js.Undefined
                     [Published (synthetic Demo.R2)] ∅) in
  hasPerm (user Demo.env) PERM_VIEW_PROBLEM_HIDDEN = false
  /\ hidden <$> problem_get (db Demo.env) (Some "system") (pid Demo.R2) = Some true
  /\ sent (trace c) = [snapshot_message Demo.env Demo.R2]
  /\ sent (trace rows) = [].
Proof. vm_compute. by split_and!. Qed.

(** ** Submitted code *)

Section Code.

Variable env : Env.

(** The detail page scrubs the code for a viewer who neither owns the
    record nor holds the code-read permission. *)
Lemma detail_page_scrubs_code domainId rid (c c' : Ctx Response) :
  hasPerm (user env) PERM_READ_RECORD_CODE = false ->
  RecordDetailHandler.get env domainId rid c = (Done tt, c') ->
  exists udoc rdoc pdoc,
    response_body (this c') = Some (BodyDetail udoc rdoc pdoc) /\
    (uid rdoc <> user_uid (user env) -> code rdoc = None).
Proof.
  intros Hperm. unfold RecordDetailHandler.get. run.
  destruct (record_get _ _ _) as [rdoc|]; [|done].
  rewrite Hperm, andb_true_r.
  assert (Hscrub : forall r,
             r = (if negb (Z.eqb (uid rdoc) (user_uid (user env)))
                  then scrub_code rdoc else rdoc) ->
             uid r <> user_uid (user env) -> code r = None).
  { intros r ->. destruct (Z.eqb_spec (uid rdoc) (user_uid (user env))); simpl; done. }
  destruct (contest rdoc) as [ct|]; simpl.
  - destruct (contest_get _ _ _ _) as [tdoc|e]; simpl; [|done].
    destruct (canShowRecord env tdoc (Some true)); simpl; [|done].
    intros [= <-]. simpl. do 3 eexists. split; [reflexivity|by apply Hscrub].
  - intros [= <-]. simpl. do 3 eexists. split; [reflexivity|by apply Hscrub].
Qed.

End Code.

(** C3, evaluated where the code departs from it. The viewer [guest] does
    not own [R1] and lacks the code-read permission. The detail page hands
    the template a record whose code is scrubbed; the detail connection
    renders its snapshot, and the list connection its row, from the record
    with its code intact; and a patch is forwarded with whatever its
    [$set] carries. *)
Lemma connections_render_unscrubbed_code :
  let code_of := fun x => code (ctx_rdoc x) in
  let page := snd (RecordDetailHandler.get Demo.env "system" (_id Demo.R1)
                     (start empty_response ∅)) in
  let detail := snd (DetailSession.open Demo.env "system" (_id Demo.R1)
                       [Published {| ev_rdoc := Demo.R1;
                                     ev_set := Some [("code", "int main() { return 0; }")];
                                     ev_push := None |}] ∅) in
  let rows := snd (MainSession.open Demo.env "system" Js.Undefined
                     [Published (synthetic Demo.R1)] ∅) in
  user_uid (user Demo.env) <> uid Demo.R1
  /\ hasPerm (user Demo.env) PERM_READ_RECORD_CODE = false
  /\ response_body (this page) =
     Some (BodyDetail (Some Demo.alice) (scrub_code Demo.R1) (Some Demo.P1))
  /\ map code_of (rendered (trace detail)) =
     [Some "int main() { return 0; }"; Some "int main() { return 0; }"]
  /\ sent (trace detail) =
     [snapshot_message Demo.env Demo.R1;
      MsgPatch [("code", "int main() { return 0; }")] None]
  /\ map code_of (rendered (trace rows)) = [Some "int main() { return 0; }"].
Proof. vm_compute. by split_and!. Qed.

(** ** The detail connection *)

Section DetailEvents.

Variable env : Env.

(** When nothing is dispatched to the session before the initial call of
    its handler has run to its end: a detail connection session that
    passes authorization (its record exists and, if it belongs to a
    contest, [canShowRecord] accepts the contest) has performed exactly
    the effects of one full snapshot of the fetched record: the status
    render, the summary render and one message carrying both. This is so
    when no event ever follows; and whatever events and client messages
    follow, what they add comes after that snapshot. An event dispatched
    while the snapshot is being rendered is another matter, for which see
    the asynchronous execution below. *)
Theorem detail_session_initial_snapshot domainId rid rdoc acts (b : Bus.table) :
  record_get (db env) domainId rid = Some rdoc ->
  authorized env domainId rdoc = true ->
  let c0 := snd (DetailSession.open env domainId rid [] b) in
  let c := snd (DetailSession.open env domainId rid acts b) in
  trace c0 = snapshot_effects env rdoc
  /\ sent (trace c0) = [snapshot_message env rdoc]
  /\ c = snd (for_each (fun a => spawn (DetailSession.step env a)) acts c0)
  /\ exists live,
      trace c = snapshot_effects env rdoc ++ live
      /\ sent (trace c) = snapshot_message env rdoc :: sent live.
Proof.
  intros Hget Hauth.
  pose proof (detail_prepare_cases env domainId rid b) as H.
  unfold DetailSession.open, serve. simpl in *.
  destruct (Detail.prepare env domainId rid (start Detail.init b)) as [r c1].
  simpl in H.
  destruct H as [(_ & _ & _ & _ & _ & Hno)
                | (Hr & Hc & _ & _ & _ & rdoc' & Hget' & _ & Htr)].
  { specialize (Hno rdoc Hget). congruence. }
  assert (rdoc' = rdoc) as -> by congruence.
  subst r. rewrite Hc. simpl.
  split_and!; [done|by rewrite Htr|done|].
  destruct (for_each_adds (fun _ => True) I (fun _ _ _ _ => I)
              (fun a => spawn (DetailSession.step env a)) acts
              (detail_step_frame env) c1) as (_ & _ & _ & live & Hlive & _).
  exists live. rewrite Hlive, Htr. split; [done|].
  unfold sent. by rewrite omap_app.
Qed.

(** C5 (amended). For an event whose record id is the target of the
    detail session: if the event carries a [$set] component, the session
    sends exactly one patch message, made of that [$set] and of the
    event's [$push] as it is, and renders nothing; if the event carries no
    [$set] component, the session renders the status view and the summary
    view of the event's record and sends both in one message. Nothing else
    of the connection changes. *)
Theorem detail_event_patch_or_snapshot data (c : Ctx Detail.state) :
  Detail.this_rid (this c) = Some (_id (ev_rdoc data)) ->
  let c' := snd (Detail.onRecordChange env data c) in
  this c' = this c /\ bus c' = bus c /\ closed c' = closed c
  /\ (forall set,
        ev_set data = Some set ->
        trace c' = trace c ++ [ESend (MsgPatch set (ev_push data))])
  /\ (ev_set data = None ->
      trace c' = trace c ++ snapshot_effects env (ev_rdoc data)).
Proof.
  intros Hrid c'. subst c'. rewrite detail_onRecordChange_run. simpl.
  unfold Detail.other_record. rewrite Hrid, String.eqb_refl. simpl.
  split_and!; try done.
  - by intros set ->.
  - by intros ->.
Qed.

(** C10. In the detail connection's event handler, for an event on the
    session's target record the choice between patch and full re-render
    depends on the [$set] component alone: whatever [$push] is, present
    or absent, an event without [$set] is answered by the two renders and
    the snapshot message, and an event with [$set] by the single patch
    message carrying [$push] as it came. *)
Theorem detail_patch_decided_by_set rdoc (set : Mapping) (push : option Mapping)
    (c : Ctx Detail.state) :
  Detail.this_rid (this c) = Some (_id rdoc) ->
  snd (Detail.onRecordChange env
         {| ev_rdoc := rdoc; ev_set := None; ev_push := push |} c)
  = mkCtx (this c) (bus c) (closed c) (trace c ++ snapshot_effects env rdoc)
  /\
  snd (Detail.onRecordChange env
         {| ev_rdoc := rdoc; ev_set := Some set; ev_push := push |} c)
  = mkCtx (this c) (bus c) (closed c) (trace c ++ [ESend (MsgPatch set push)]).
Proof.
  intros Hrid. rewrite !detail_onRecordChange_run. simpl.
  unfold Detail.other_record. by rewrite Hrid, String.eqb_refl.
Qed.

(** The detail connection dereferences the fetched record without testing
    it: with no document under [rid], [prepare] fails on [rdoc.contest]
    with a type error, before a subscription is made and before anything
    is rendered or sent. *)
Lemma detail_connection_missing_record domainId rid (c : Ctx Detail.state) :
  record_get (db env) domainId rid = None ->
  Detail.prepare env domainId rid c
  = (Threw (TypeError "Cannot read property 'contest' of null"), c).
Proof. intros Hget. unfold Detail.prepare. by rewrite Hget. Qed.

(** The detail page does test it, and signals the not-found condition;
    the condition raised when contest visibility fails is a different
    one. *)
Lemma detail_page_missing_record domainId rid (c : Ctx Response) :
  record_get (db env) domainId rid = None ->
  exists c',
    RecordDetailHandler.get env domainId rid c = (Threw (RecordNotFoundError rid), c')
    /\ bus c' = bus c /\ trace c' = trace c
    /\ RecordNotFoundError rid <> PermissionError (OfRecord rid).
Proof.
  intros Hget. unfold RecordDetailHandler.get. run. rewrite Hget.
  eexists. by split_and!.
Qed.

Lemma detail_page_contest_refused domainId rid rdoc ct tdoc (c : Ctx Response) :
  record_get (db env) domainId rid = Some rdoc ->
  contest rdoc = Some ct ->
  contest_get (db env) domainId (tid ct) (type ct) = Done tdoc ->
  canShowRecord env tdoc (Some true) = false ->
  fst (RecordDetailHandler.get env domainId rid c) = Threw (PermissionError (OfRecord rid)).
Proof.
  intros Hget Hct Htdoc Hshow. unfold RecordDetailHandler.get. run.
  by rewrite Hget, Hct, Htdoc, Hshow.
Qed.

End DetailEvents.

(** C8, evaluated where the code departs from it: the detail connection
    opened with the id [X], which no record has, ends with a type error
    and not with the not-found condition; no subscription was made. The
    detail page opened with the same id signals the not-found
    condition. *)
Lemma detail_connection_missing_record_type_error :
  record_get (db Demo.env) "system" Demo.X = None
  /\ DetailSession.open Demo.env "system" Demo.X [] ∅
     = (Threw (TypeError "Cannot read property 'contest' of null"),
        start Detail.init ∅)
  /\ fst (RecordDetailHandler.get Demo.env "system" Demo.X (start empty_response ∅))
     = Threw (RecordNotFoundError Demo.X).
Proof.
  split; [reflexivity|]. split; [|reflexivity].
  unfold DetailSession.open, serve.
  by rewrite (detail_connection_missing_record Demo.env "system" Demo.X).
Qed.

(** C5, as stated, fails: an event on the target record that carries a
    delta made of a [$push] component only is answered by a full
    re-render and a snapshot message, not by a patch. *)
Lemma push_only_delta_is_rerendered :
  let data := {| ev_rdoc := Demo.R1; ev_set := None;
                 ev_push := Some [("judgeTexts", "Compiling")] |} in
  let c0 := snd (DetailSession.open Demo.env "system" (_id Demo.R1) [] ∅) in
  let c := snd (Detail.onRecordChange Demo.env data c0) in
  Detail.this_rid (this c0) = Some (_id (ev_rdoc data))
  /\ ev_push data <> None
  /\ trace c = trace c0 ++ snapshot_effects Demo.env Demo.R1
  /\ rendered (trace c) = rendered (trace c0) ++ [CtxRdoc Demo.R1; CtxRdoc Demo.R1]
  /\ forall set push, ~ In (ESend (MsgPatch set push)) (trace c).
Proof.
  vm_compute. split_and!; try done.
  intros set push H. repeat (destruct H as [H|H]; [discriminate|]). done.
Qed.

Lemma detail_session_initial_snapshot_witness :
  let c0 := snd (DetailSession.open Demo.env "system" (_id Demo.R3) [] ∅) in
  record_get (db Demo.env) "system" (_id Demo.R3) = Some Demo.R3
  /\ authorized Demo.env "system" Demo.R3 = true
  /\ sent (trace c0) = [snapshot_message Demo.env Demo.R3].
Proof.
  intros c0. split; [reflexivity|]. split; [reflexivity|].
  destruct (detail_session_initial_snapshot Demo.env "system" (_id Demo.R3)
              Demo.R3 [] ∅ eq_refl eq_refl) as (_ & Hsent & _).
  exact Hsent.
Defined.

Lemma detail_event_patch_or_snapshot_witness :
  let data := {| ev_rdoc := Demo.R1; ev_set := Some [("status", "AC")];
                 ev_push := Some [] |} in
  let c0 := snd (DetailSession.open Demo.env "system" (_id Demo.R1) [] ∅) in
  Detail.this_rid (this c0) = Some (_id (ev_rdoc data))
  /\ trace (snd (Detail.onRecordChange Demo.env data c0))
     = trace c0 ++ [ESend (MsgPatch [("status", "AC")] (Some []))].
Proof.
  intros data c0. split; [reflexivity|].
  destruct (detail_event_patch_or_snapshot Demo.env data c0 eq_refl)
    as (_ & _ & _ & Hpatch & _).
  apply (Hpatch [("status", "AC")] eq_refl).
Defined.

Lemma detail_patch_decided_by_set_witness :
  let c0 := snd (DetailSession.open Demo.env "system" (_id Demo.R1) [] ∅) in
  Detail.this_rid (this c0) = Some (_id Demo.R1)
  /\ snd (Detail.onRecordChange Demo.env
            {| ev_rdoc := Demo.R1; ev_set := None;
               ev_push := Some [("testCases", "1")] |} c0)
     = mkCtx (this c0) (bus c0) (closed c0)
             (trace c0 ++ snapshot_effects Demo.env Demo.R1)
  /\ snd (Detail.onRecordChange Demo.env
            {| ev_rdoc := Demo.R1; ev_set := Some [("status", "AC")];
               ev_push := None |} c0)
     = mkCtx (this c0) (bus c0) (closed c0)
             (trace c0 ++ [ESend (MsgPatch [("status", "AC")] None)]).
Proof.
  intros c0. split; [reflexivity|].
  destruct (detail_patch_decided_by_set Demo.env Demo.R1 [("status", "AC")]
              (Some [("testCases", "1")]) c0 eq_refl) as [Hpush _].
  destruct (detail_patch_decided_by_set Demo.env Demo.R1 [("status", "AC")]
              None c0 eq_refl) as [_ Hset].
  split; [exact Hpush|exact Hset].
Defined.

(** ** Rejudge *)

(** C7. A rejudge request that passes the permission check and carries a
    record id under which the store has no document completes
    successfully as a no-op: no reset of a record, nothing handed to the
    judging pipeline, no event published, no error; the only thing done is
    [this.back()]. *)
Theorem rejudge_missing_record_is_noop (env : Env) domainId rid (c : Ctx Response) :
  checkPerm env PERM_REJUDGE = Done tt ->
  record_get (db env) domainId rid = None ->
  RecordRejudgeHandler.post env domainId rid c
  = (Done tt, mkCtx (this c) (bus c) (closed c) (trace c ++ [EBack])).
Proof.
  intros Hperm Hget. unfold RecordRejudgeHandler.post. run.
  by rewrite Hperm, Hget.
Qed.

Lemma rejudge_missing_record_is_noop_witness :
  checkPerm (Demo.env_of Demo.judge) PERM_REJUDGE = Done tt
  /\ record_get (db (Demo.env_of Demo.judge)) "system" Demo.X = None
  /\ RecordRejudgeHandler.post (Demo.env_of Demo.judge) "system" Demo.X
       (start empty_response ∅)
     = (Done tt, mkCtx empty_response ∅ false [EBack]).
Proof.
  split; [reflexivity|]. split; [reflexivity|].
  apply (rejudge_missing_record_is_noop (Demo.env_of Demo.judge) "system" Demo.X
           (start empty_response ∅) eq_refl eq_refl).
Defined.

(** For comparison, the same request for a record that exists resets it
    and hands it to the judging pipeline. *)
Lemma rejudge_existing_record (env : Env) domainId rid rdoc (c : Ctx Response) :
  checkPerm env PERM_REJUDGE = Done tt ->
  record_get (db env) domainId rid = Some rdoc ->
  RecordRejudgeHandler.post env domainId rid c
  = (Done tt, mkCtx (this c) (bus c) (closed c)
                    (trace c ++ [EReset domainId rid true; EJudge domainId rid; EBack])).
Proof.
  intros Hperm Hget. unfold RecordRejudgeHandler.post. run.
  rewrite Hperm, Hget. simpl. by rewrite <- !app_assoc.
Qed.

(** * Further properties of the handlers *)

(** ** Resynchronisation requests of a list session *)

Section Resync.

Variable env : Env.

Lemma onRecordChange_row data (c : Ctx Main.state) :
  Main.onRecordChange env data c =
  (Done tt,
   mkCtx (this c) (bus c) (closed c)
         (trace c ++ if shown env (this c) (ev_rdoc data)
                     then row_effects env (this c) (ev_rdoc data) else [])).
Proof.
  rewrite main_onRecordChange_run. unfold shown, row_effects, row_message.
  destruct c as [self t cl tr]. simpl.
  destruct (Main.other_contest _ _); simpl; [by rewrite app_nil_r|].
  destruct (Main.hidden_from _ _); simpl; [by rewrite app_nil_r|done].
Qed.

Lemma for_each_rows (l : list Rdoc) (c : Ctx Main.state) :
  for_each (fun rdoc => spawn (Main.onRecordChange env (synthetic rdoc))) l c =
  (Done tt,
   mkCtx (this c) (bus c) (closed c)
         (trace c ++ flat_map (row_effects env (this c))
                       (filter (fun r => shown env (this c) r = true) l))).
Proof.
  revert c. induction l as [|r l IH]; intros c.
  - destruct c. simpl. unfold ret. by rewrite app_nil_r.
  - simpl. unfold bind, spawn at 1. rewrite onRecordChange_row. simpl.
    rewrite IH. simpl. rewrite filter_cons.
    destruct (shown env (this c) r) eqn:Hs; simpl.
    + by rewrite <- app_assoc.
    + by rewrite app_nil_r.
Qed.

Lemma message_run ids oids (c : Ctx Main.state) :
  mapM Js.ObjectID_of_string ids = Some oids ->
  Main.message env {| rids := Some ids |} c =
  (Done tt,
   mkCtx (this c) (bus c) (closed c)
         (trace c ++ flat_map (row_effects env (this c))
                       (filter (fun r => shown env (this c) r = true)
                          (record_getMulti_in (db env) (Main.this_domainId (this c)) oids)))).
Proof.
  intros Hids. unfold Main.message. simpl. rewrite Hids.
  unfold bind, get_this. simpl. apply for_each_rows.
Qed.

Lemma message_malformed ids (c : Ctx Main.state) :
  mapM Js.ObjectID_of_string ids = None ->
  Main.message env {| rids := Some ids |} c = (Threw invalid_ObjectID, c).
Proof. intros Hids. unfold Main.message. simpl. by rewrite Hids. Qed.

Lemma mapM_elem_of {A B} (f : A -> option B) (l : list A) (k : list B) (y : B) :
  mapM f l = Some k -> y ∈ k <-> exists x, x ∈ l /\ f x = Some y.
Proof.
  intros H%mapM_Some_1. induction H as [|x y' l k Hxy _ IH].
  - split; [by intros ?%elem_of_nil|by intros (? & ?%elem_of_nil & _)].
  - rewrite elem_of_cons, IH. split.
    + intros [->|(x' & Hx' & Hf)]; [exists x; split; [by left|done]|].
      exists x'. split; [by right|done].
    + intros (x' & [->|Hx']%elem_of_cons & Hf); [left; congruence|].
      right. by exists x'.
Qed.

Lemma sent_row_effects self (l : list Rdoc) :
  sent (flat_map (row_effects env self) l)
  = map (fun r => row_message env (row_ctx env self r)) l.
Proof. induction l as [|r l IH]; [done|]. simpl. by rewrite <- IH. Qed.

Lemma rendered_row_effects self (l : list Rdoc) :
  rendered (flat_map (row_effects env self) l) = map (row_ctx env self) l.
Proof. induction l as [|r l IH]; [done|]. simpl. by rewrite <- IH. Qed.

Lemma row_effects_render_or_send self (l : list Rdoc) :
  Forall render_or_send (flat_map (row_effects env self) l).
Proof. induction l as [|r l IH]; [constructor|]. simpl. by repeat constructor. Qed.

(** X1. A resynchronisation request whose ids are all accepted by the
    [ObjectID] constructor ends normally, leaves the fields of the
    session, the bus and the connection untouched, and performs renders
    and sends only: up to their order, the rows rendered, and the
    messages sent, are those of the records that are stored in the
    session's domain under one of the requested ids and get past the
    contest and hidden-problem tests, one each. *)
Theorem resync_sends_requested_rows ids (c : Ctx Main.state) :
  Forall (fun id => is_Some (Js.ObjectID_of_string id)) ids ->
  exists tr,
    Main.message env {| rids := Some ids |} c
    = (Done tt, mkCtx (this c) (bus c) (closed c) (trace c ++ tr))
    /\ Forall render_or_send tr
    /\ rendered tr ≡ₚ map (row_ctx env (this c)) (resync_rows env (this c) ids)
    /\ sent tr ≡ₚ map (fun r => row_message env (row_ctx env (this c) r))
                      (resync_rows env (this c) ids).
Proof.
  intros Hvalid. destruct (mapM_is_Some_2 _ _ Hvalid) as [oids Hoids].
  eexists. split; [by apply message_run|].
  unfold resync_rows. rewrite Hoids.
  rewrite sent_row_effects, rendered_row_effects.
  split; [apply row_effects_render_or_send|done].
Qed.

(** X2. What a resynchronisation request does depends only on the set of
    ids it carries: two requests listing the same ids, in any order and
    with any repetition, have the same outcome. *)
Theorem resync_depends_on_id_set ids ids' (c : Ctx Main.state) :
  (forall x, x ∈ ids <-> x ∈ ids') ->
  Main.message env {| rids := Some ids |} c
  = Main.message env {| rids := Some ids' |} c.
Proof.
  intros Hsame.
  destruct (mapM Js.ObjectID_of_string ids) as [oids|] eqn:Hids;
    destruct (mapM Js.ObjectID_of_string ids') as [oids'|] eqn:Hids'.
  - rewrite (message_run _ _ _ Hids), (message_run _ _ _ Hids').
    unfold record_getMulti_in.
    destruct (Main.this_domainId (this c)) as [d|]; [|done].
    rewrite (list_filter_iff (fun r => _id r ∈ oids) (fun r => _id r ∈ oids')); [done|].
    intros r. rewrite (mapM_elem_of _ _ _ _ Hids), (mapM_elem_of _ _ _ _ Hids').
    split; intros (x & Hx & Hf); exists x; (split; [by apply Hsame|done]).
  - apply mapM_None_1, Exists_exists in Hids' as (x & Hx & Hnone).
    assert (Hok : is_Some (mapM Js.ObjectID_of_string ids)) by by eexists.
    apply mapM_is_Some_1 in Hok.
    destruct (proj1 (Forall_forall _ _) Hok x) as [y Hy]; [by apply Hsame|].
    congruence.
  - apply mapM_None_1, Exists_exists in Hids as (x & Hx & Hnone).
    assert (Hok : is_Some (mapM Js.ObjectID_of_string ids')) by by eexists.
    apply mapM_is_Some_1 in Hok.
    destruct (proj1 (Forall_forall _ _) Hok x) as [y Hy]; [by apply Hsame|].
    congruence.
  - by rewrite (message_malformed _ _ Hids), (message_malformed _ _ Hids').
Qed.

(** X3. A client message whose [rids] is not an array is ignored. A
    request whose ids are all accepted by the [ObjectID] constructor but
    are those of no stored record renders and sends nothing and changes
    nothing. A request with an id the constructor rejects fails with the
    constructor's error before any record is looked up: nothing is
    rendered or sent. *)
Theorem resync_without_match_or_malformed msg (c : Ctx Main.state) :
  (rids msg = None -> Main.message env msg c = (Done tt, c))
  /\ (forall ids oids,
        rids msg = Some ids ->
        mapM Js.ObjectID_of_string ids = Some oids ->
        (forall d r, r ∈ records (db env) d -> _id r ∉ oids) ->
        Main.message env msg c = (Done tt, c))
  /\ (forall ids,
        rids msg = Some ids ->
        Exists (fun id => Js.ObjectID_of_string id = None) ids ->
        Main.message env msg c = (Threw invalid_ObjectID, c)).
Proof.
  destruct msg as [[ids0|]]; simpl; split_and!; try done.
  - intros ids oids [= <-] Hoids Hnone.
    rewrite (message_run _ _ _ Hoids). unfold record_getMulti_in.
    destruct (Main.this_domainId (this c)) as [d|].
    + assert (Hempty : filter (fun r => _id r ∈ oids) (records (db env) d) = []).
      { destruct (filter (fun r => _id r ∈ oids) (records (db env) d))
          as [|x l'] eqn:E; [done|].
        assert (Hx : x ∈ filter (fun r => _id r ∈ oids) (records (db env) d))
          by (rewrite E; left).
        apply list_elem_of_filter in Hx as [Hin Hr].
        by destruct (Hnone d x Hr). }
      rewrite Hempty. destruct c. simpl. by rewrite app_nil_r.
    + destruct c. simpl. by rewrite app_nil_r.
  - intros ids [= <-] Hbad. apply message_malformed. by apply mapM_None_2.
Qed.

End Resync.

Lemma resync_sends_requested_rows_witness :
  let c := snd (MainSession.open Demo.env "system" Js.Undefined [] ∅) in
  let ids := ["5E8F1C0000000000000000A1"; _id Demo.R3; _id Demo.R2; Demo.X] in
  Forall (fun id => is_Some (Js.ObjectID_of_string id)) ids
  /\ resync_rows Demo.env (this c) ids = [Demo.R1]
  /\ sent (trace (snd (Main.message Demo.env {| rids := Some ids |} c)))
     ≡ₚ [MsgHtml "record_main_tr.html#5e8f1c0000000000000000a1"].
Proof.
  intros c ids.
  assert (Hvalid : Forall (fun id => is_Some (Js.ObjectID_of_string id)) ids).
  { repeat constructor; by eexists. }
  split; [exact Hvalid|]. split; [reflexivity|].
  destruct (resync_sends_requested_rows Demo.env ids c Hvalid)
    as (tr & Hrun & _ & _ & Hsent).
  rewrite Hrun. simpl.
  replace (sent (trace c ++ tr)) with (sent tr) by reflexivity.
  exact Hsent.
Defined.

Lemma resync_depends_on_id_set_witness :
  let c := snd (MainSession.open Demo.env "system" Js.Undefined [] ∅) in
  (forall x, x ∈ [_id Demo.R1; _id Demo.R3] <-> x ∈ [_id Demo.R3; _id Demo.R1; _id Demo.R3])
  /\ sent (trace (snd (Main.message Demo.env
                         {| rids := Some [_id Demo.R3; _id Demo.R1; _id Demo.R3] |} c)))
     = [MsgHtml "record_main_tr.html#5e8f1c0000000000000000a1"].
Proof.
  intros c.
  assert (Hsame : forall x, x ∈ [_id Demo.R1; _id Demo.R3]
                            <-> x ∈ [_id Demo.R3; _id Demo.R1; _id Demo.R3]).
  { intros x. rewrite !elem_of_cons, !elem_of_nil. tauto. }
  split; [exact Hsame|].
  transitivity (sent (trace (snd (Main.message Demo.env
                                    {| rids := Some [_id Demo.R1; _id Demo.R3] |} c)))).
  - exact (f_equal (fun r => sent (trace (snd r)))
                   (eq_sym (resync_depends_on_id_set Demo.env _ _ c Hsame))).
  - reflexivity.
Defined.

Lemma resync_without_match_or_malformed_witness :
  let c := snd (MainSession.open Demo.env "system" Js.Undefined [] ∅) in
  Main.message Demo.env {| rids := None |} c = (Done tt, c)
  /\ Main.message Demo.env {| rids := Some [Demo.X] |} c = (Done tt, c)
  /\ Main.message Demo.env {| rids := Some [_id Demo.R1; "zz"] |} c
     = (Threw invalid_ObjectID, c).
Proof.
  intros c.
  destruct (resync_without_match_or_malformed Demo.env {| rids := None |} c)
    as (Hnone & _ & _).
  destruct (resync_without_match_or_malformed Demo.env {| rids := Some [Demo.X] |} c)
    as (_ & Hmiss & _).
  destruct (resync_without_match_or_malformed Demo.env
              {| rids := Some [_id Demo.R1; "zz"] |} c) as (_ & _ & Hbad).
  split; [by apply Hnone|]. split.
  - apply (Hmiss [Demo.X] [Demo.X] eq_refl eq_refl).
    intros d r Hr. simpl in Hr. rewrite !elem_of_cons, elem_of_nil in Hr.
    rewrite elem_of_cons, elem_of_nil.
    destruct Hr as [->|[->|[->|[]]]]; intros [H|[]]; discriminate H.
  - apply (Hbad _ eq_refl). right. left. reflexivity.
Defined.

(** ** Sessions that are refused *)

Section Refused.

Variable env : Env.



(** X5. A detail connection whose record does not exist or is not
    authorized never subscribes and never renders or sends anything:
    no snapshot and no patch reaches its client, whatever is published
    before the connection is torn down. *)
Theorem refused_detail_session_is_silent domainId rid acts (b : Bus.table) :
  (forall rdoc, record_get (db env) domainId rid = Some rdoc ->
                authorized env domainId rdoc = false) ->
  let c := DetailSession.run env domainId rid acts b in
  sent (trace c) = [] /\ rendered (trace c) = [] /\
  Detail.this_id (this c) = None /\ bus c = b.
Proof.
  intros Hrefused.
  pose proof (detail_prepare_cases env domainId rid b) as H.
  unfold DetailSession.run, lifecycle, serve. simpl in *.
  destruct (Detail.prepare env domainId rid (start Detail.init b)) as [r c1].
  simpl in H.
  destruct H as [(Hid & Hb & Hc & Hs & Hr & _)
                | (_ & _ & _ & _ & _ & rdoc & Hget & Hauth & _)].
  - assert (Hsame : snd (match r with
                         | Done _ => if closed c1 then (Done tt, c1)
                                     else for_each (fun a => spawn (DetailSession.step env a)) acts c1
                         | Threw e => (Threw e, c1)
                         end) = c1).
    { destruct Hc as [Hc|[e ->]]; [|done]. destruct r; [by rewrite Hc|done]. }
    rewrite Hsame. unfold shutdown, Detail.cleanup. run. by rewrite Hid, Hb.
  - specialize (Hrefused rdoc Hget). congruence.
Qed.

End Refused.


Lemma refused_detail_session_is_silent_witness :
  let acts := [Published {| ev_rdoc := Demo.R3; ev_set := Some [("status", "AC")];
                            ev_push := None |}] in
  authorized (Demo2.strict Demo.guest) "system" Demo.R3 = false
  /\ sent (trace (DetailSession.run (Demo2.strict Demo.guest) "system"
                    (_id Demo.R3) acts ∅)) = [].
Proof.
  intros acts. split; [reflexivity|].
  apply (refused_detail_session_is_silent (Demo2.strict Demo.guest) "system"
           (_id Demo.R3) acts ∅).
  intros rdoc [= <-]. reflexivity.
Defined.

(** ** What a detail session tells its client *)

Section DetailTarget.

Variable env : Env.

Lemma detail_prepare_rid domainId rid (c : Ctx Detail.state) :
  Detail.this_rid (this c) = None ->
  let c1 := snd (Detail.prepare env domainId rid c) in
  Detail.this_rid (this c1) = Some rid \/ Detail.this_rid (this c1) = None.
Proof.
  intros Hnone. unfold Detail.prepare.
  destruct (record_get _ _ _) as [rdoc|]; run; [|by right].
  destruct (contest rdoc) as [ct|]; simpl.
  - destruct (contest_get _ _ _ _) as [tdoc|e]; simpl; [|by right].
    destruct (canShowRecord env tdoc None); simpl; [|by right].
    rewrite detail_onRecordChange_run. simpl.
    destruct (Detail.other_record _ _); by left.
  - rewrite detail_onRecordChange_run. simpl.
    destruct (Detail.other_record _ _); by left.
Qed.

Lemma rendered_all_nil (Q : RenderCtx -> Prop) : Forall Q (rendered []).
Proof. constructor. Qed.

Lemma rendered_all_app (Q : RenderCtx -> Prop) a b :
  Forall Q (rendered a) -> Forall Q (rendered b) -> Forall Q (rendered (a ++ b)).
Proof.
  intros Ha Hb. unfold rendered in *. rewrite omap_app. by apply Forall_app.
Qed.

Lemma detail_step_target rid a (c : Ctx Detail.state) :
  Detail.this_rid (this c) = Some rid ->
  adds (fun tr => Forall (fun x => _id (ctx_rdoc x) = rid) (rendered tr)) c
       (snd (spawn (DetailSession.step env a) c)).
Proof.
  intros Hrid. apply spawn_adds. destruct a as [data|msg]; simpl.
  - unfold deliver. destruct (Bus.subscribed _ _ _);
      [|apply adds_refl; constructor].
    unfold spawn. simpl. rewrite detail_onRecordChange_run. simpl.
    unfold Detail.other_record. rewrite Hrid.
    destruct (String.eqb_spec (_id (ev_rdoc data)) rid) as [Heq|Hne]; simpl.
    + repeat split. eexists. split; [reflexivity|].
      destruct (ev_set data); simpl; repeat constructor; done.
    + apply adds_refl. constructor.
  - apply adds_refl. constructor.
Qed.

(** X6. A detail session opened for the record [rid] only ever renders
    that record: every context it hands to the template engine, for the
    initial snapshot or on a later event, is of the record with id [rid];
    and an event about any other record is dropped without any
    effect. *)
Theorem detail_session_only_renders_target domainId rid acts (b : Bus.table) :
  let c := snd (DetailSession.open env domainId rid acts b) in
  Forall (fun x => _id (ctx_rdoc x) = rid) (rendered (trace c))
  /\ (forall data, _id (ev_rdoc data) <> rid ->
                   Detail.onRecordChange env data c = (Done tt, c)).
Proof.
  pose proof (detail_prepare_cases env domainId rid b) as H.
  pose proof (detail_prepare_rid domainId rid (start Detail.init b) eq_refl) as Hrid.
  unfold DetailSession.open, serve. simpl in *.
  destruct (Detail.prepare env domainId rid (start Detail.init b)) as [r c1].
  simpl in H, Hrid.
  assert (Hdrop : forall c : Ctx Detail.state,
             (Detail.this_rid (this c) = Some rid \/ Detail.this_rid (this c) = None) ->
             forall data, _id (ev_rdoc data) <> rid ->
                          Detail.onRecordChange env data c = (Done tt, c)).
  { intros c Hc data Hne. rewrite detail_onRecordChange_run.
    unfold Detail.other_record. destruct Hc as [-> | ->]; [|done].
    by destruct (String.eqb_spec (_id (ev_rdoc data)) rid). }
  destruct H as [(_ & _ & Hc & _ & Hr & _)
                | (Hr & Hc & _ & _ & Hthis & rdoc & Hget & _ & Htr)].
  - assert (Hsame : snd (match r with
                         | Done _ => if closed c1 then (Done tt, c1)
                                     else for_each (fun a => spawn (DetailSession.step env a)) acts c1
                         | Threw e => (Threw e, c1)
                         end) = c1).
    { destruct Hc as [Hc|[e ->]]; [|done]. destruct r; [by rewrite Hc|done]. }
    rewrite Hsame. split; [by rewrite Hr|by apply Hdrop].
  - subst r. rewrite Hc.
    destruct (for_each_adds_inv
                (fun tr => Forall (fun x => _id (ctx_rdoc x) = rid) (rendered tr))
                (rendered_all_nil _) (rendered_all_app _)
                (fun self => Detail.this_rid self = Some rid)
                (fun a => spawn (DetailSession.step env a)) acts
                (detail_step_target rid) c1 Hthis)
      as (Hsame & _ & _ & tr & Htrace & Hall).
    split.
    + rewrite Htrace, Htr. unfold rendered in *. rewrite omap_app.
      apply Forall_app. split; [|exact Hall].
      pose proof (record_get_id env _ _ _ Hget) as Hid.
      simpl. by repeat constructor.
    + apply Hdrop. left. by rewrite Hsame.
Qed.

End DetailTarget.

(** ** The representation of the contest filter *)

Section FilterRepresentation.

Variable env : Env.

Lemma other_contest_string rdoc ct (self : Main.state) :
  contest rdoc = Some ct ->
  Main.other_contest rdoc self = false <-> Main.this_tid self = Js.Str (tid ct).
Proof.
  intros Hct. unfold Main.other_contest. rewrite Hct.
  destruct (Main.this_tid self) as [|s|h]; simpl; [done| |done].
  rewrite negb_false_iff, String.eqb_eq. split; [by intros ->|by intros [= ->]].
Qed.

(** X7. For an event whose record is associated with a contest, the list
    session's handler renders and sends the row exactly when [this.tid] is
    a string equal to the record's contest id and the hidden-problem test
    lets the record through; when [this.tid] is anything else -- another
    string, an object, or unassigned -- the handler does nothing at all:
    the comparison is strict. *)
Theorem contest_record_row_iff_string_equal data ct (c : Ctx Main.state) :
  contest (ev_rdoc data) = Some ct ->
  (Main.this_tid (this c) = Js.Str (tid ct) ->
   Main.hidden_from env
     (problem_get (db env) (Main.this_domainId (this c)) (pid (ev_rdoc data))) = false ->
   Main.onRecordChange env data c =
   (Done tt,
    mkCtx (this c) (bus c) (closed c)
          (trace c ++ row_effects env (this c) (ev_rdoc data))))
  /\ (Main.this_tid (this c) = Js.Str (tid ct) ->
      Main.hidden_from env
        (problem_get (db env) (Main.this_domainId (this c)) (pid (ev_rdoc data))) = true ->
      Main.onRecordChange env data c = (Done tt, c))
  /\ (Main.this_tid (this c) <> Js.Str (tid ct) ->
      Main.onRecordChange env data c = (Done tt, c)).
Proof.
  intros Hct. pose proof (other_contest_string (ev_rdoc data) ct (this c) Hct) as Hiff.
  rewrite main_onRecordChange_run. split_and!.
  - intros Htid Hh. apply Hiff in Htid. by rewrite Htid, Hh.
  - intros Htid Hh. apply Hiff in Htid. by rewrite Htid, Hh.
  - intros Hne. destruct (Main.other_contest (ev_rdoc data) (this c)) eqn:Hoc; [done|].
    by apply (other_contest_string _ ct _ Hct) in Hoc.
Qed.

(** X8. In a list session whose [tid] parameter was decoded to an
    [ObjectID] object, every row written is for a record without contest
    association, and every event for a contest record is dropped, the
    records of the very contest of the filter included. *)
Theorem object_filter_matches_no_contest_record domainId h acts (b : Bus.table) :
  let c := snd (MainSession.open env domainId (Js.Oid h) acts b) in
  rows_of env (fun r => contest r = None) (trace c)
  /\ (forall data ct,
        contest (ev_rdoc data) = Some ct ->
        Main.onRecordChange env data c = (Done tt, c)).
Proof.
  intros c.
  destruct (main_open_rows env (fun r => contest r = None) domainId (Js.Oid h) acts b)
    as (Hrows & _ & Htid).
  { intros self rdoc _ Htid Hshown. unfold filter_of in Htid. simpl in Htid.
    unfold shown in Hshown. apply andb_true_iff in Hshown as [Hc _].
    apply negb_true_iff in Hc.
    destruct (contest rdoc) as [ct|] eqn:Hct; [|done].
    apply (other_contest_string rdoc ct self Hct) in Hc.
    congruence. }
  fold c in Hrows, Htid. split; [exact Hrows|].
  intros data ct Hct. rewrite main_onRecordChange_run.
  destruct (Main.other_contest (ev_rdoc data) (this c)) eqn:Hoc; [done|].
  apply (other_contest_string _ ct _ Hct) in Hoc.
  unfold filter_of in Htid. simpl in Htid. destruct Htid; congruence.
Qed.

End FilterRepresentation.

Lemma contest_record_row_iff_string_equal_witness :
  let self := {| Main.this_domainId := Some "system";
                 Main.this_tid := Js.Str Demo.T2; Main.this_id := Some 0%nat |} in
  let other := {| Main.this_domainId := Some "system";
                  Main.this_tid := Js.Oid Demo.T2; Main.this_id := Some 0%nat |} in
  contest Demo.R3 = Some {| tid := Demo.T2; type := 30 |}
  /\ sent (trace (snd (Main.onRecordChange Demo.env (synthetic Demo.R3)
                         (mkCtx self ∅ false []))))
     = [MsgHtml "record_main_tr.html#5e8f1c0000000000000000a3"]
  /\ Main.onRecordChange Demo.env (synthetic Demo.R3) (mkCtx other ∅ false [])
     = (Done tt, mkCtx other ∅ false []).
Proof.
  intros self other. split; [reflexivity|].
  destruct (contest_record_row_iff_string_equal Demo.env (synthetic Demo.R3)
              {| tid := Demo.T2; type := 30 |} (mkCtx self ∅ false []) eq_refl)
    as (Hrow & _ & _).
  destruct (contest_record_row_iff_string_equal Demo.env (synthetic Demo.R3)
              {| tid := Demo.T2; type := 30 |} (mkCtx other ∅ false []) eq_refl)
    as (_ & _ & Hdrop).
  split.
  - rewrite (Hrow eq_refl eq_refl). reflexivity.
  - apply Hdrop. discriminate.
Defined.

(** ** Rows for records whose problem is hidden or missing *)

Section RowsShown.

Variable env : Env.

(** X9. Once a record has got past the contest test, the list session's
    handler drops the event, without any effect, exactly when the problem
    document is found, is hidden, and the viewer lacks the hidden-problem
    permission. In every other case -- the viewer holds the permission,
    the problem is found and not hidden, or the problem document is
    missing (the row is then rendered with [pdoc] null) -- the row is
    rendered and sent. *)
Theorem row_sent_unless_hidden_without_permission data (c : Ctx Main.state) :
  Main.other_contest (ev_rdoc data) (this c) = false ->
  let pdoc := problem_get (db env) (Main.this_domainId (this c)) (pid (ev_rdoc data)) in
  ((exists p, pdoc = Some p /\ hidden p = true) ->
   hasPerm (user env) PERM_VIEW_PROBLEM_HIDDEN = false ->
   Main.onRecordChange env data c = (Done tt, c))
  /\ (hasPerm (user env) PERM_VIEW_PROBLEM_HIDDEN = true
      \/ pdoc = None
      \/ (exists p, pdoc = Some p /\ hidden p = false) ->
      Main.onRecordChange env data c =
      (Done tt,
       mkCtx (this c) (bus c) (closed c)
             (trace c ++ row_effects env (this c) (ev_rdoc data)))).
Proof.
  intros Hc pdoc. rewrite main_onRecordChange_run, Hc. fold pdoc.
  unfold Main.hidden_from. split.
  - intros (p & -> & Hhidden) Hperm. by rewrite Hhidden, Hperm.
  - intros [Hperm|[->|(p & -> & Hshown)]]; [|done|by rewrite Hshown].
    rewrite Hperm. destruct pdoc; [by rewrite andb_false_r|done].
Qed.

End RowsShown.

Lemma row_sent_unless_hidden_without_permission_witness :
  let staff := snd (MainSession.open (Demo.env_of Demo2.staff) "system" Js.Undefined [] ∅) in
  let guest := snd (MainSession.open Demo.env "system" Js.Undefined [] ∅) in
  hidden <$> problem_get Demo.store (Some "system") (pid Demo.R2) = Some true
  /\ sent (trace (snd (Main.onRecordChange (Demo.env_of Demo2.staff)
                         (synthetic Demo.R2) staff)))
     = [MsgHtml "record_main_tr.html#5e8f1c0000000000000000a2"]
  /\ Main.onRecordChange Demo.env (synthetic Demo.R2) guest = (Done tt, guest)
  /\ sent (trace (snd (Main.onRecordChange Demo.env (synthetic Demo.R1) guest)))
     = [MsgHtml "record_main_tr.html#5e8f1c0000000000000000a1"].
Proof.
  intros staff guest. split; [reflexivity|].
  destruct (row_sent_unless_hidden_without_permission (Demo.env_of Demo2.staff)
              (synthetic Demo.R2) staff eq_refl) as [_ Hstaff].
  destruct (row_sent_unless_hidden_without_permission Demo.env
              (synthetic Demo.R2) guest eq_refl) as [Hdrop _].
  destruct (row_sent_unless_hidden_without_permission Demo.env
              (synthetic Demo.R1) guest eq_refl) as [_ Hshown].
  split_and!.
  - rewrite (Hstaff (or_introl eq_refl)). reflexivity.
  - apply Hdrop; [by exists Demo.P2|reflexivity].
  - rewrite Hshown; [reflexivity|]. right. right. by exists Demo.P1.
Defined.

(** ** The detail page *)

Section DetailPage.

Variable env : Env.

(** What a successful detail page leaves behind: the template, and a body
    made of the record, scrubbed or not by the test of line 71, with the
    documents of its owner and problem. *)
Lemma detail_page_done domainId rid (c c' : Ctx Response) :
  RecordDetailHandler.get env domainId rid c = (Done tt, c') ->
  exists rdoc,
    record_get (db env) domainId rid = Some rdoc /\
    c' = mkCtx
           (set_body
              (BodyDetail
                 (user_getById (db env) (Some domainId) (uid rdoc))
                 (if negb (Z.eqb (uid rdoc) (user_uid (user env)))
                     && negb (hasPerm (user env) PERM_READ_RECORD_CODE)
                  then scrub_code rdoc else rdoc)
                 (problem_get (db env) (Some domainId) (pid rdoc)))
              (set_template "record_detail.html" (this c)))
           (bus c) (closed c) (trace c).
Proof.
  unfold RecordDetailHandler.get. run.
  destruct (record_get _ _ _) as [rdoc|]; [|done].
  assert (Hsame : forall r : Rdoc,
             r = (if negb (Z.eqb (uid rdoc) (user_uid (user env)))
                     && negb (hasPerm (user env) PERM_READ_RECORD_CODE)
                  then scrub_code rdoc else rdoc) ->
             uid r = uid rdoc /\ pid r = pid rdoc).
  { intros r ->. by destruct (_ && _). }
  destruct (Hsame _ eq_refl) as [Hu Hp]. rewrite Hu, Hp. clear Hsame Hu Hp.
  destruct (contest rdoc) as [ct|]; simpl.
  - destruct (contest_get _ _ _ _) as [tdoc|e]; simpl; [|done].
    destruct (canShowRecord env tdoc (Some true)); simpl; [|done].
    intros [= <-]. by exists rdoc.
  - intros [= <-]. by exists rdoc.
Qed.

(** X10. When the detail page is served to the owner of the record, or to
    a viewer holding the code-read permission, the record placed in the
    response body is the stored record, unchanged, code included. *)
Theorem detail_page_keeps_code_for_owner_or_reader domainId rid (c c' : Ctx Response) :
  RecordDetailHandler.get env domainId rid c = (Done tt, c') ->
  (forall rdoc, record_get (db env) domainId rid = Some rdoc ->
                uid rdoc = user_uid (user env)
                \/ hasPerm (user env) PERM_READ_RECORD_CODE = true) ->
  exists udoc rdoc pdoc,
    record_get (db env) domainId rid = Some rdoc /\
    response_body (this c') = Some (BodyDetail udoc rdoc pdoc).
Proof.
  intros Hget Hmay. apply detail_page_done in Hget as (rdoc & Hrec & ->).
  exists (user_getById (db env) (Some domainId) (uid rdoc)), rdoc,
         (problem_get (db env) (Some domainId) (pid rdoc)).
  split; [done|]. simpl.
  destruct (Hmay rdoc Hrec) as [Hown | Hperm].
  - by rewrite Hown, Z.eqb_refl.
  - by rewrite Hperm, andb_false_r.
Qed.

(** X11. When the detail page is served to a viewer who neither owns the
    record nor holds the code-read permission, the record placed in the
    response body is the stored record with its code set to null and
    every other field as stored; the user and problem documents beside
    it are those of the record's owner and problem. *)
Theorem detail_page_hides_code_from_others domainId rid (c c' : Ctx Response) :
  RecordDetailHandler.get env domainId rid c = (Done tt, c') ->
  hasPerm (user env) PERM_READ_RECORD_CODE = false ->
  (forall rdoc, record_get (db env) domainId rid = Some rdoc ->
                uid rdoc <> user_uid (user env)) ->
  exists rdoc,
    record_get (db env) domainId rid = Some rdoc /\
    response_body (this c') =
    Some (BodyDetail (user_getById (db env) (Some domainId) (uid rdoc))
                     (scrub_code rdoc)
                     (problem_get (db env) (Some domainId) (pid rdoc))).
Proof.
  intros Hget Hperm Hother. apply detail_page_done in Hget as (rdoc & Hrec & ->).
  exists rdoc. split; [done|]. simpl. rewrite Hperm.
  specialize (Hother rdoc Hrec).
  by destruct (Z.eqb_spec (uid rdoc) (user_uid (user env))).
Qed.

(** X12. A detail page request that fails exposes nothing: the response
    body is left as it was, no effect is performed and the bus is not
    touched; and the failure is the not-found condition for this id, the
    permission condition for this id, or the error of the contest
    lookup. *)
Theorem detail_page_failure_exposes_nothing domainId rid (c c' : Ctx Response) e :
  RecordDetailHandler.get env domainId rid c = (Threw e, c') ->
  response_body (this c') = response_body (this c)
  /\ trace c' = trace c /\ bus c' = bus c
  /\ (e = RecordNotFoundError rid /\ record_get (db env) domainId rid = None
      \/ e = PermissionError (OfRecord rid)
      \/ exists t ty, contest_get (db env) domainId t ty = Threw e).
Proof.
  unfold RecordDetailHandler.get. run.
  destruct (record_get _ _ _) as [rdoc|].
  - destruct (contest rdoc) as [ct|]; simpl; [|done].
    destruct (contest_get _ _ _ _) as [tdoc|e0] eqn:Hcg; simpl.
    + destruct (canShowRecord env tdoc (Some true)); simpl; [done|].
      intros [= <- <-]. split_and!; try done. right. by left.
    + intros [= <- <-]. split_and!; try done. right. right. by eauto.
  - intros [= <- <-]. split_and!; try done. by left.
Qed.

End DetailPage.

Lemma detail_page_keeps_code_for_owner_or_reader_witness :
  exists udoc pdoc c',
    RecordDetailHandler.get (Demo.env_of Demo2.staff) "system" (_id Demo.R1)
      (start empty_response ∅) = (Done tt, c')
    /\ response_body (this c') = Some (BodyDetail udoc Demo.R1 pdoc).
Proof.
  pose (c' := snd (RecordDetailHandler.get (Demo.env_of Demo2.staff) "system"
                     (_id Demo.R1) (start empty_response ∅))).
  destruct (detail_page_keeps_code_for_owner_or_reader (Demo.env_of Demo2.staff)
              "system" (_id Demo.R1) (start empty_response ∅) c' eq_refl)
    as (udoc & rdoc & pdoc & Hrec & Hbody).
  { intros rdoc _. by right. }
  exists udoc, pdoc, c'. split; [reflexivity|].
  assert (rdoc = Demo.R1) as <- by (by injection Hrec).
  exact Hbody.
Defined.

Lemma detail_page_hides_code_from_others_witness :
  exists c',
    RecordDetailHandler.get Demo.env "system" (_id Demo.R1) (start empty_response ∅)
    = (Done tt, c')
    /\ response_body (this c') =
       Some (BodyDetail (Some Demo.alice) (scrub_code Demo.R1) (Some Demo.P1)).
Proof.
  pose (c' := snd (RecordDetailHandler.get Demo.env "system" (_id Demo.R1)
                     (start empty_response ∅))).
  exists c'. split; [reflexivity|].
  destruct (detail_page_hides_code_from_others Demo.env "system" (_id Demo.R1)
              (start empty_response ∅) c' eq_refl eq_refl) as (rdoc & Hrec & Hbody).
  { intros rdoc [= <-]. discriminate. }
  assert (rdoc = Demo.R1) as -> by (by injection Hrec).
  exact Hbody.
Defined.

Lemma detail_page_failure_exposes_nothing_witness :
  exists c',
    RecordDetailHandler.get (Demo2.strict Demo.guest) "system" (_id Demo.R3)
      (start empty_response ∅) = (Threw (PermissionError (OfRecord (_id Demo.R3))), c')
    /\ response_body (this c') = None.
Proof.
  pose (c' := snd (RecordDetailHandler.get (Demo2.strict Demo.guest) "system"
                     (_id Demo.R3) (start empty_response ∅))).
  exists c'. split; [reflexivity|].
  destruct (detail_page_failure_exposes_nothing (Demo2.strict Demo.guest) "system"
              (_id Demo.R3) (start empty_response ∅) c'
              (PermissionError (OfRecord (_id Demo.R3))) eq_refl) as (Hbody & _).
  exact Hbody.
Defined.

(** ** Rejudge, completely *)

(** X13. A rejudge request writes to the store only when the permission
    check passes and the record exists, and then it resets that record
    (as a rejudge) before handing it to the judging pipeline and
    redirecting back; when the check fails, its error is the outcome and
    nothing at all is done, whether or not the record exists. *)
Theorem rejudge_writes_only_when_permitted (env : Env) domainId rid (c : Ctx Response) :
  let r := RecordRejudgeHandler.post env domainId rid c in
  this (snd r) = this c /\ bus (snd r) = bus c
  /\ ((exists e, checkPerm env PERM_REJUDGE = Threw e
                 /\ fst r = Threw e /\ trace (snd r) = trace c)
      \/ (checkPerm env PERM_REJUDGE = Done tt
          /\ record_get (db env) domainId rid = None
          /\ fst r = Done tt /\ trace (snd r) = trace c ++ [EBack])
      \/ (checkPerm env PERM_REJUDGE = Done tt
          /\ (exists rdoc, record_get (db env) domainId rid = Some rdoc)
          /\ fst r = Done tt
          /\ trace (snd r) = trace c ++ [EReset domainId rid true; EJudge domainId rid; EBack])).
Proof.
  unfold RecordRejudgeHandler.post. run.
  destruct (checkPerm env PERM_REJUDGE) as [[]|e]; simpl.
  - destruct (record_get _ _ _) as [rdoc|]; simpl.
    + split_and!; try done. right. right.
      split_and!; try done; [by exists rdoc|by rewrite <- !app_assoc].
    + split_and!; try done. right. left. by split_and!.
  - split_and!; try done. left. by exists e.
Qed.

(** ** The management handlers *)

Section ManageUsers.

Import Manage.

Implicit Types (udocs : list UserDoc) (roles : list RoleDoc)
               (m : gmap string (list UserDoc)).

Lemma init_rudocs_from m roles k :
  foldl (fun m r => <[role_id r := []]> m) m roles !! k
  = if decide (k ∈ map role_id roles) then Some [] else m !! k.
Proof.
  revert m. induction roles as [|r roles IH]; intros m.
  - destruct (decide (k ∈ map role_id [])) as [H|]; [by apply elem_of_nil in H|done].
  - cbn [foldl map]. rewrite IH. destruct (decide (k ∈ map role_id roles)) as [Hin|Hout].
    + rewrite decide_True; [done|]. by right.
    + destruct (decide (k = role_id r)) as [->|Hne].
      * rewrite decide_True; [|by left]. by rewrite lookup_insert_eq.
      * rewrite decide_False; [by rewrite lookup_insert_ne|].
        rewrite elem_of_cons. intros [?|?]; done.
Qed.

Lemma init_rudocs_lookup roles k :
  init_rudocs roles !! k = if decide (k ∈ map role_id roles) then Some [] else None.
Proof. unfold init_rudocs. by rewrite init_rudocs_from, lookup_empty. Qed.

(** When every user's role has an entry, the loop ends normally: the ids
    are collected in order, and each entry receives, after what it held,
    the users of its role in order. *)
Lemma group_known udocs : forall uids m,
  (forall u, u ∈ udocs -> is_Some (m !! role u)) ->
  exists m',
    group udocs uids m = inr (uids ++ map _id udocs, m')
    /\ forall k, m' !! k = (fun l => l ++ filter (fun u => role u = k) udocs) <$> m !! k.
Proof.
  induction udocs as [|u udocs IH]; intros uids m Hknown; simpl.
  - exists m. split; [by rewrite app_nil_r|].
    intros k. destruct (m !! k); simpl; [by rewrite app_nil_r|done].
  - destruct (Hknown u) as [l Hl]; [by left|]. rewrite Hl.
    destruct (IH (uids ++ [_id u]) (<[role u := l ++ [u]]> m)) as (m' & Hrun & Hm').
    { intros u' Hu'. destruct (decide (role u = role u')) as [<-|Hne].
      - rewrite lookup_insert_eq. by eexists.
      - rewrite lookup_insert_ne by done. apply Hknown. by right. }
    exists m'. split; [by rewrite Hrun, <- app_assoc|].
    intros k. rewrite Hm', filter_cons.
    destruct (decide (role u = k)) as [<-|Hne].
    + rewrite lookup_insert_eq, Hl. simpl. by rewrite <- app_assoc.
    + by rewrite lookup_insert_ne.
Qed.

(** A user whose role has no entry stops the loop with a type error. *)
Lemma group_unknown udocs : forall uids m u,
  u ∈ udocs -> m !! role u = None ->
  group udocs uids m = inl (TypeError "Cannot read property 'push' of undefined").
Proof.
  induction udocs as [|u0 udocs IH]; intros uids m u Hu Hnone; simpl.
  - by apply elem_of_nil in Hu.
  - destruct (m !! role u0) as [l|] eqn:Hl; [|done].
    apply elem_of_cons in Hu as [->|Hu]; [congruence|].
    apply (IH _ _ u Hu).
    rewrite lookup_insert_ne; [done|]. intros Heq. congruence.
Qed.

(** X14. When the role of every listed user is one of the roles, the user
    screen is produced: each role is mapped to exactly the listed users
    of that role, in their order (a role without user to the empty
    list), nothing else has an entry, and the user dictionary is asked
    for the ids of the listed users in their order. *)
Theorem manage_users_grouped_by_role udocs roles system getList :
  (forall u, u ∈ udocs -> role u ∈ map role_id roles) ->
  exists body,
    ManageUserHandler.get udocs roles system getList = inr ("manage_user.html", body)
    /\ (forall k, body_rudocs body !! k =
                  if decide (k ∈ map role_id roles)
                  then Some (filter (fun u => role u = k) udocs) else None)
    /\ body_udict body = getList (map _id udocs)
    /\ body_roles body = roles /\ body_system body = system
    /\ body_rolesSelect body = map (fun r => (role_id r, role_id r)) roles.
Proof.
  intros Hknown. unfold ManageUserHandler.get.
  destruct (group_known udocs [] (init_rudocs roles)) as (m' & Hrun & Hm').
  { intros u Hu. rewrite init_rudocs_lookup, decide_True by by apply Hknown.
    by eexists. }
  rewrite Hrun. eexists. split; [reflexivity|]. simpl. split_and!; try done.
  intros k. rewrite Hm', init_rudocs_lookup. by case_decide.
Qed.

(** X15. When some listed user has a role that is not among the roles,
    the user screen fails with a type error (the [push] on a missing
    entry), and no response is produced. *)
Theorem manage_users_unknown_role_fails udocs roles system getList u :
  u ∈ udocs -> role u ∉ map role_id roles ->
  ManageUserHandler.get udocs roles system getList
  = inl (TypeError "Cannot read property 'push' of undefined").
Proof.
  intros Hu Hunknown. unfold ManageUserHandler.get.
  rewrite (group_unknown udocs [] (init_rudocs roles) u Hu); [done|].
  by rewrite init_rudocs_lookup, decide_False.
Qed.

End ManageUsers.

Section ManageRoles.

Import Manage.

Lemma builtin_spec v :
  ManageRoleHandler.builtin v = true <-> ManageRoleHandler.protected v.
Proof.
  unfold ManageRoleHandler.protected. destruct v as [r| |]; simpl.
  - rewrite !orb_true_iff, !String.eqb_eq.
    split; [intros [->|[->|[->|?]]]; [tauto|tauto|tauto|done]|].
    intros [[= ->]|[[= ->]|[= ->]]]; tauto.
  - split; [done|]. by intros [?|[?|?]].
  - split; [done|]. by intros [?|[?|?]].
Qed.

Lemma validate_spec items :
  ManageRoleHandler.validate items =
  if decide (Forall (fun v => ManageRoleHandler.builtin v = false) items)
  then None else Some (ValidationError "role").
Proof.
  induction items as [|v items IH].
  - by rewrite decide_True.
  - cbn [ManageRoleHandler.validate].
    destruct (ManageRoleHandler.builtin v) eqn:Hb.
    + rewrite decide_False; [done|]. intros H. apply Forall_cons in H as [H _].
      congruence.
    + rewrite IH. case_decide as Hrest.
      * rewrite decide_True; [done|]. by constructor.
      * rewrite decide_False; [done|]. by intros [_ ?]%Forall_cons.
Qed.

Lemma character_not_builtin a :
  ManageRoleHandler.builtin (VString (String a EmptyString)) = false.
Proof.
  simpl. repeat match goal with
                | |- context [if ?b then _ else _] => destruct b
                end; reflexivity.
Qed.

(** X16. A role deletion request whose [roles] is an array naming
    [root], [default] or [guest] anywhere is rejected with the validation
    error on [role] and deletes nothing, not even the other roles it
    names; an array naming none of them asks for the deletion of exactly
    that array, once, and then redirects back. The value is not required
    to be an array: a single string is iterated by character, so it is
    never rejected, not even ['guest'], and is passed on to the deletion
    as it is; a value that cannot be iterated fails with a type error
    before any deletion. *)
Theorem postDelete_protects_builtin_roles :
  (forall items,
      Exists ManageRoleHandler.protected items ->
      ManageRoleHandler.postDelete (VArray items) = (inl (ValidationError "role"), []))
  /\ (forall items,
        Forall (fun v => ~ ManageRoleHandler.protected v) items ->
        ManageRoleHandler.postDelete (VArray items)
        = (inr tt, [DeleteRoles (VArray items); Back]))
  /\ (forall s,
        ManageRoleHandler.postDelete (VString s)
        = (inr tt, [DeleteRoles (VString s); Back]))
  /\ ManageRoleHandler.postDelete VOther = (inl (TypeError "roles is not iterable"), []).
Proof.
  unfold ManageRoleHandler.postDelete. split_and!; [| | |done].
  - intros items Hex. simpl. rewrite validate_spec, decide_False; [done|].
    intros Hall. apply Exists_exists in Hex as (v & Hv & Hp).
    apply builtin_spec in Hp.
    pose proof (proj1 (Forall_forall _ _) Hall v Hv). congruence.
  - intros items Hall. simpl. rewrite validate_spec, decide_True; [done|].
    eapply Forall_impl; [exact Hall|]. intros v Hv.
    destruct (ManageRoleHandler.builtin v) eqn:Hb; [|done].
    by apply builtin_spec in Hb.
  - intros s. simpl. rewrite validate_spec, decide_True; [done|].
    apply Forall_forall. intros v Hv.
    apply list_elem_of_fmap in Hv as (a & -> & _). apply character_not_builtin.
Qed.

End ManageRoles.

Lemma manage_users_grouped_by_role_witness :
  exists body,
    Manage.ManageUserHandler.get [ManageDemo.u1; ManageDemo.u2; ManageDemo.u3]
      [ManageDemo.root; ManageDemo.admin; ManageDemo.default] None ManageDemo.getList
    = inr ("manage_user.html", body)
    /\ Manage.body_rudocs body !! "root" = Some [ManageDemo.u1; ManageDemo.u3]
    /\ Manage.body_rudocs body !! "default" = Some []
    /\ Manage.body_rudocs body !! "teacher" = None.
Proof.
  destruct (manage_users_grouped_by_role
              [ManageDemo.u1; ManageDemo.u2; ManageDemo.u3]
              [ManageDemo.root; ManageDemo.admin; ManageDemo.default]
              None ManageDemo.getList) as (body & Hrun & Hgroups & _).
  { intros u Hu. rewrite !elem_of_cons, elem_of_nil in Hu. simpl.
    rewrite !elem_of_cons.
    destruct Hu as [->|[->|[->|[]]]]; simpl; tauto. }
  exists body. split; [exact Hrun|].
  rewrite !Hgroups. split_and!; reflexivity.
Defined.

Lemma manage_users_unknown_role_fails_witness :
  ManageDemo.u4 ∈ [ManageDemo.u1; ManageDemo.u4]
  /\ Manage.ManageUserHandler.get [ManageDemo.u1; ManageDemo.u4]
       [ManageDemo.root; ManageDemo.admin; ManageDemo.default] None ManageDemo.getList
     = inl (Manage.TypeError "Cannot read property 'push' of undefined").
Proof.
  assert (Hin : ManageDemo.u4 ∈ [ManageDemo.u1; ManageDemo.u4]) by (right; left).
  split; [exact Hin|].
  apply (manage_users_unknown_role_fails _ _ _ _ ManageDemo.u4 Hin).
  simpl. rewrite !elem_of_cons, elem_of_nil.
  intros [H|[H|[H|[]]]]; discriminate H.
Defined.

Lemma postDelete_protects_builtin_roles_witness :
  Manage.ManageRoleHandler.postDelete
    (Manage.VArray [Manage.VString "teacher"; Manage.VString "guest"])
  = (inl (Manage.ValidationError "role"), [])
  /\ Manage.ManageRoleHandler.postDelete
       (Manage.VArray [Manage.VString "teacher"; Manage.VString "admin"])
     = (inr tt, [Manage.DeleteRoles
                   (Manage.VArray [Manage.VString "teacher"; Manage.VString "admin"]);
                 Manage.Back])
  /\ Manage.ManageRoleHandler.postDelete (Manage.VString "guest")
     = (inr tt, [Manage.DeleteRoles (Manage.VString "guest"); Manage.Back]).
Proof.
  destruct postDelete_protects_builtin_roles as (Hbad & Hgood & Hstring & _).
  split_and!.
  - apply Hbad. right. left. right. by right.
  - apply Hgood. repeat constructor; intros [H|[H|H]]; discriminate H.
  - apply Hstring.
Defined.

(** * Asynchronous execution *)

(** ** The sequential schedule *)

Section Sequential.

Context {T : Type}.

Lemma finish_awaiting (resume : call T) (c : Ctx T) :
  finish (Awaiting resume) c =
  let '(c1, a, spawned) := resume c in finish a (finish_all spawned c1).
Proof.
  simpl. by destruct (resume c) as [[c1 a] spawned].
Qed.

Lemma complete_await (k : call T) (c : Ctx T) : complete (await k) c = complete k c.
Proof.
  unfold complete, await. cbn [finish_all fold_left]. by rewrite finish_awaiting.
Qed.

Lemma finish_all_app (l l' : list (async T)) (c : Ctx T) :
  finish_all (l ++ l') c = finish_all l' (finish_all l c).
Proof. unfold finish_all. apply fold_left_app. Qed.

End Sequential.

(** Unfolds the combinators of asynchronous bodies and resumes what is
    suspended. *)
Ltac arun :=
  unfold complete, seq, sync, await, settle, fork in *; run;
  repeat (rewrite finish_awaiting; simpl).

Section SequentialHandlers.

Variable env : Env.

(** Run without interruption, each asynchronous body does what the
    handler of the same name defined first does. *)
Lemma detail_onRecordChange_complete data (c : Ctx Detail.state) :
  complete (DetailAsync.onRecordChange env data) c = Detail.onRecordChange env data c.
Proof.
  unfold DetailAsync.onRecordChange, Detail.onRecordChange. arun.
  destruct (Detail.other_record _ _); [done|].
  destruct (ev_set data) as [set|]; [done|].
  by arun.
Qed.

Lemma main_onRecordChange_complete data (c : Ctx Main.state) :
  complete (MainAsync.onRecordChange env data) c = Main.onRecordChange env data c.
Proof.
  unfold MainAsync.onRecordChange, Main.onRecordChange. arun.
  destruct (Main.other_contest _ _); [done|]. arun.
  destruct (Main.hidden_from _ _); [done|]. by arun.
Qed.

Lemma main_prepare_complete domainId tid (c : Ctx Main.state) :
  complete (MainAsync.prepare env domainId tid) c = Main.prepare env domainId tid c.
Proof.
  unfold MainAsync.prepare, Main.prepare. arun.
  destruct (Js.truthy tid); arun; [|done].
  destruct (contest_get _ _ _ _) as [tdoc|e]; arun; [|done].
  destruct (canShowRecord env tdoc None); by arun.
Qed.

Lemma detail_prepare_complete domainId rid (c : Ctx Detail.state) :
  complete (DetailAsync.prepare env domainId rid) c = Detail.prepare env domainId rid c.
Proof.
  unfold DetailAsync.prepare, Detail.prepare, DetailAsync.onRecordChange,
    Detail.onRecordChange. arun.
  destruct (record_get _ _ _) as [rdoc|]; [|done].
  destruct (contest rdoc) as [ct|]; arun.
  - destruct (contest_get _ _ _ _) as [tdoc|e]; arun; [|done].
    destruct (canShowRecord env tdoc None); arun; [|done].
    destruct (Detail.other_record _ _); arun; done.
  - destruct (Detail.other_record _ _); arun; done.
Qed.

(** The first stretch of a call of the list session's [onRecordChange]
    changes nothing; what it leaves pending does, once resumed to its end,
    what the handler defined first does. *)
Lemma main_onRecordChange_first data (c : Ctx Main.state) :
  exists a, MainAsync.onRecordChange env data c = (c, a, [])
            /\ forall c' : Ctx Main.state,
                this c' = this c ->
                finish_all (pending_of a) c' = snd (Main.onRecordChange env data c').
Proof.
  unfold MainAsync.onRecordChange, Main.onRecordChange. arun.
  destruct (Main.other_contest (ev_rdoc data) (this c)) eqn:Hoc.
  - eexists. split; [by destruct c|]. intros c' Hc'. rewrite Hc', Hoc. done.
  - eexists. split; [by destruct c|]. intros c' Hc'. rewrite Hc', Hoc.
    unfold finish_all. simpl. arun.
    destruct (Main.hidden_from _ _); [done|]. by arun.
Qed.

Lemma main_for_each_fork_first (l : list Rdoc) (c : Ctx Main.state) :
  exists tasks,
    for_each_fork (fun rdoc => MainAsync.onRecordChange env (synthetic rdoc)) l c
    = (c, Settled (Done tt), tasks)
    /\ forall c' : Ctx Main.state,
        this c' = this c ->
        finish_all tasks c'
        = snd (for_each (fun rdoc => spawn (Main.onRecordChange env (synthetic rdoc))) l c').
Proof.
  induction l as [|r l IH].
  - exists []. split; [done|]. intros c' _. done.
  - destruct IH as (tasks & Hrest & Hfinish).
    destruct (main_onRecordChange_first (synthetic r) c) as (a & Hfirst & Ha).
    exists (pending_of a ++ tasks). split.
    + cbn [for_each_fork]. unfold fork. by rewrite Hfirst, Hrest.
    + intros c' Hc'. rewrite finish_all_app, (Ha c' Hc').
      cbn [for_each]. unfold bind, spawn at 2.
      apply Hfinish. rewrite <- Hc'.
      rewrite main_onRecordChange_run. simpl.
      destruct (Main.other_contest _ _); [done|].
      by destruct (Main.hidden_from _ _).
Qed.

Lemma main_message_complete msg (c : Ctx Main.state) :
  complete (MainAsync.message env msg) c = Main.message env msg c.
Proof.
  unfold MainAsync.message, Main.message.
  destruct (rids msg) as [ids|]; [|done].
  destruct (mapM Js.ObjectID_of_string ids) as [oids|]; [|done].
  destruct (main_for_each_fork_first
              (record_getMulti_in (db env) (Main.this_domainId (this c)) oids) c)
    as (tasks & Hrun & Hfinish).
  unfold complete, seq, await, bind, get_this. cbn [finish_all fold_left].
  rewrite finish_awaiting, Hrun. cbn [finish]. rewrite (Hfinish c eq_refl).
  by rewrite for_each_rows.
Qed.

End SequentialHandlers.

(** ** Schedules the sequential one leaves out *)

(** C1, evaluated where the code departs from it. [prepare] awaits a
    lookup before it subscribes and does not test, when it is resumed,
    whether the connection was closed meanwhile. A detail connection for
    [R1] and a list connection filtered to [T1] are closed while their
    [prepare] is suspended: [cleanup] runs at once, with [this.id] still
    unassigned, and removes nothing; [prepare] is then resumed and
    subscribes. Both sessions are closed and their ids are in the
    subscription table for good; the closed list session goes on
    rendering and sending rows for the events published. *)
Lemma close_during_prepare_leaks_subscription :
  let detail :=
    play (detail_handlers Demo.env) [Close; Resume 0%nat]
         (connect (detail_handlers Demo.env)
                  (DetailAsync.prepare Demo.env "system" (_id Demo.R1)) Detail.init ∅) in
  let rows :=
    play (main_handlers Demo.env) [Close; Resume 0%nat]
         (connect (main_handlers Demo.env)
                  (MainAsync.prepare Demo.env "system" (Js.Str Demo.T1)) Main.init ∅) in
  let later :=
    play (main_handlers Demo.env)
         [Publish (synthetic Demo.R1); Resume 0%nat; Resume 0%nat] rows in
  closed (sys_ctx detail) = true
  /\ Bus.subscribed (bus (sys_ctx detail)) "record_change"
                    (Detail.this_id (this (sys_ctx detail))) = true
  /\ closed (sys_ctx rows) = true
  /\ Bus.subscribed (bus (sys_ctx rows)) "record_change"
                    (Main.this_id (this (sys_ctx rows))) = true
  /\ sent (trace (sys_ctx later)) = [MsgHtml "record_main_tr.html#5e8f1c0000000000000000a1"]
  /\ Bus.subscribed (bus (sys_ctx later)) "record_change"
                    (Main.this_id (this (sys_ctx later))) = true.
Proof. vm_compute. by split_and!. Qed.

(** The same two connections closed after [prepare] has been resumed are
    unsubscribed. *)
Lemma close_after_prepare_unsubscribes :
  let detail :=
    play (detail_handlers Demo.env) [Resume 0%nat; Close]
         (connect (detail_handlers Demo.env)
                  (DetailAsync.prepare Demo.env "system" (_id Demo.R1)) Detail.init ∅) in
  let rows :=
    play (main_handlers Demo.env) [Resume 0%nat; Close]
         (connect (main_handlers Demo.env)
                  (MainAsync.prepare Demo.env "system" (Js.Str Demo.T1)) Main.init ∅) in
  Bus.subscribed (bus (sys_ctx detail)) "record_change"
                 (Detail.this_id (this (sys_ctx detail))) = false
  /\ Bus.subscribed (bus (sys_ctx rows)) "record_change"
                    (Main.this_id (this (sys_ctx rows))) = false.
Proof. vm_compute. by split_and!. Qed.

(** C4, evaluated where the code departs from it. [prepare] calls the
    handler on the fetched record without awaiting it, and the handler
    awaits two renders before it sends the snapshot, whereas an event
    with [$set] is answered at once. A detail connection for [R1] passes
    authorization and subscribes; an event for [R1] carrying a [$set] is
    published while the initial call is suspended at its first render:
    the patch is sent first, and the one initial snapshot after it. *)
Lemma live_patch_overtakes_initial_snapshot :
  let patch := {| ev_rdoc := Demo.R1; ev_set := Some [("status", "AC")];
                  ev_push := None |} in
  let opened :=
    play (detail_handlers Demo.env) [Resume 0%nat]
         (connect (detail_handlers Demo.env)
                  (DetailAsync.prepare Demo.env "system" (_id Demo.R1)) Detail.init ∅) in
  let s :=
    play (detail_handlers Demo.env) [Publish patch; Resume 0%nat; Resume 0%nat] opened in
  authorized Demo.env "system" Demo.R1 = true
  /\ Bus.subscribed (bus (sys_ctx opened)) "record_change"
                    (Detail.this_id (this (sys_ctx opened))) = true
  /\ sent (trace (sys_ctx opened)) = []
  /\ sent (trace (sys_ctx s))
     = [MsgPatch [("status", "AC")] None; snapshot_message Demo.env Demo.R1]
  /\ length (sys_pending s) = 0%nat.
Proof. vm_compute. by split_and!. Qed.
